(** * Merchant registration form: image intake, geocoding sync, submission gate

    A shallow embedding of [src/components/new-merchant-form.tsx].

    The component keeps its data in React state cells and changes them from
    four event handlers.  Each handler is an [async] function: it is modelled
    as a computation in a state-and-completion monad over a [World] made of
    the React store, the file input element, and a log of the effects the
    handler performed.  A handler is run from its first statement to the
    settlement of the promise it returns, without another handler running in
    between; the values a handler reads from its closure ([images],
    [geocoder]) are those of the render that created it.  Every promise the
    handler awaits (image decoding, geocoding, the submission handler) is
    taken to settle, as fulfilled or as rejected. *)

From Stdlib Require Import ZArith QArith Qround String Ascii List Bool Lia.
From Stdlib Require Import DecimalString.
Import ListNotations.

Local Open Scope string_scope.
Local Open Scope list_scope.
Local Open Scope Z_scope.

(** ** The JavaScript pieces the component relies on *)

Module JS.

(** A thrown value: an [Error] instance with its [message], or anything
    else. *)
Inductive value : Type :=
| ErrorObject (message : string)
| NonError (shown : string).

(** How a promise settles. *)
Inductive settled (A : Type) : Type :=
| Fulfilled (a : A)
| Rejected (reason : value).
Arguments Fulfilled {A} a.
Arguments Rejected {A} reason.

(** [Math.round]: nearest integer, ties towards plus infinity.  The
    quotients the component rounds have numerator and denominator far
    below 2^43, so the double nearest to the quotient rounds to the same
    integer as the exact quotient, which is what is computed here. *)
Definition Math_round (x : Q) : Z := Qfloor (x + (1 # 2)).

(** [s.split(sep)] for a one-character separator. *)
Fixpoint split (sep : ascii) (s : string) : list string :=
  match s with
  | EmptyString => [EmptyString]
  | String c rest =>
      if Ascii.eqb c sep then EmptyString :: split sep rest
      else match split sep rest with
           | [] => [String c EmptyString]
           | piece :: pieces => String c piece :: pieces
           end
  end.

(** [xs.join(sep)]. *)
Fixpoint join (sep : string) (xs : list string) : string :=
  match xs with
  | [] => EmptyString
  | [x] => x
  | x :: rest => x ++ sep ++ join sep rest
  end.

(** Template-literal rendering of an integral number. *)
Definition Number_toString (n : Z) : string :=
  NilZero.string_of_int (Z.to_int n).

End JS.

(** ** Constants of the module *)

Definition MAX_IMAGE_SIZE : Z := 5 * 1024 * 1024.
Definition MAX_UPLOAD_SIZE : Z := 1024 * 1024.

(** ** [compressImage]: the canvas dimensions (source lines 24-38) *)

Definition compressImage_dimensions (img_width img_height : Z) : Z * Z :=
  let width := img_width in
  let height := img_height in
  if width >? height then
    if width >? 1024 then
      let height := JS.Math_round (inject_Z (height * 1024) / inject_Z width) in
      let width := 1024 in
      (width, height)
    else (width, height)
  else
    if height >? 1024 then
      let width := JS.Math_round (inject_Z (width * 1024) / inject_Z height) in
      let height := 1024 in
      (width, height)
    else (width, height).

(** ** Data of the component *)

(** A [File] of the selection: only its [name] and [size] are read. *)
Record File : Type := { name : string; size : Z }.

(** The entries of a submitted form, in tree order. *)
Definition FormData : Type := list (string * string).

Definition FormData_get (field : string) (fd : FormData) : option string :=
  match find (fun entry => String.eqb (fst entry) field) fd with
  | Some entry => Some (snd entry)
  | None => None
  end.

Definition dquote : string := String (ascii_of_nat 34) EmptyString.

Section NewMerchantForm.

Set Implicit Arguments.

(** JavaScript numbers.  The coordinates are doubles that the component
    copies and prints but never computes with, so their type and their
    JSON rendering are left to the runtime. *)
Variable number : Type.
Variable JSON_stringify_number : number -> string.

Record LatLng : Type := { lat : number; lng : number }.

(** *** The geocoding service *)

Record GeocoderGeometry : Type := { geometry_location : option LatLng }.

Record GeocoderResult : Type :=
  { formatted_address : string; geometry : option GeocoderGeometry }.

Record GeocoderResponse : Type := { results : list GeocoderResult }.

Inductive GeocoderRequest : Type :=
| ByLocation (coords : LatLng)
| ByAddress (text : string).

Record Geocoder : Type :=
  { geocode : GeocoderRequest -> JS.settled GeocoderResponse }.

(** *** React state of [NewMerchantForm] (source lines 71-76) *)

Record State : Type :=
  { location : LatLng;
    address : string;
    images : list string;
    geocoder : option Geocoder;
    error : option string;
    isProcessing : bool }.

(** The state of the first render.  [CHIANG_MAI] is the constant
    [{ lat: 18.7883, lng: 98.9853 }]. *)
Variable CHIANG_MAI : LatLng.

Definition initial_state : State :=
  {| location := CHIANG_MAI;
     address := EmptyString;
     images := [];
     geocoder := None;
     error := None;
     isProcessing := false |}.

Definition with_location (v : LatLng) (s : State) : State :=
  {| location := v; address := address s; images := images s;
     geocoder := geocoder s; error := error s;
     isProcessing := isProcessing s |}.

Definition with_address (v : string) (s : State) : State :=
  {| location := location s; address := v; images := images s;
     geocoder := geocoder s; error := error s;
     isProcessing := isProcessing s |}.

Definition with_images (v : list string) (s : State) : State :=
  {| location := location s; address := address s; images := v;
     geocoder := geocoder s; error := error s;
     isProcessing := isProcessing s |}.

Definition with_error (v : option string) (s : State) : State :=
  {| location := location s; address := address s; images := images s;
     geocoder := geocoder s; error := v;
     isProcessing := isProcessing s |}.

Definition with_isProcessing (v : bool) (s : State) : State :=
  {| location := location s; address := address s; images := images s;
     geocoder := geocoder s; error := error s;
     isProcessing := v |}.

(** *** Effects a handler performs, in the order it performs them *)

Inductive Effect : Type :=
| SetLocation (v : LatLng)
| SetAddress (v : string)
| SetImages (v : list string)
| SetError (v : option string)
| SetIsProcessing (v : bool)
| ClearInput
| CompressCall (file : File)
| GeocodeCall (request : GeocoderRequest)
| SubmitCall (formData : FormData)
| ConsoleError (label : string) (v : JS.value).

(** The world a handler runs in: the React store, the [files] property of
    the file input element ([None] is [null]), and the effect log. *)
Record World : Type :=
  { store : State; files : option (list File); log : list Effect }.

(** *** Completions and the handler monad *)

Inductive completion (A : Type) : Type :=
| Normal (a : A)
| Return
| Throw (v : JS.value).
Arguments Normal {A} a.
Arguments Return {A}.
Arguments Throw {A} v.

Definition M (A : Type) : Type := World -> completion A * World.

Definition ret {A} (a : A) : M A := fun w => (Normal a, w).

Definition bind {A B} (m : M A) (k : A -> M B) : M B :=
  fun w =>
    match m w with
    | (Normal a, w1) => k a w1
    | (Return, w1) => (Return, w1)
    | (Throw v, w1) => (Throw v, w1)
    end.

(** [return] with no value. *)
Definition return_ {A} : M A := fun w => (Return, w).

Definition throw {A} (v : JS.value) : M A := fun w => (Throw v, w).

(** [try { body } catch (x) { handler }] *)
Definition try_catch {A} (body : M A) (handler : JS.value -> M A) : M A :=
  fun w =>
    match body w with
    | (Throw v, w1) => handler v w1
    | done => done
    end.

(** [try { body } finally { finalizer }] *)
Definition try_finally {A} (body : M A) (finalizer : M unit) : M A :=
  fun w =>
    match body w with
    | (c, w1) =>
        match finalizer w1 with
        | (Normal _, w2) => (c, w2)
        | (Return, w2) => (Return, w2)
        | (Throw v, w2) => (Throw v, w2)
        end
    end.

(** The promise an [async] function returns. *)
Definition async_function (body : M unit) (w : World)
  : JS.settled unit * World :=
  match body w with
  | (Normal _, w1) => (JS.Fulfilled tt, w1)
  | (Return, w1) => (JS.Fulfilled tt, w1)
  | (Throw v, w1) => (JS.Rejected v, w1)
  end.

(** [await p] *)
Definition await {A} (p : JS.settled A) : M A :=
  match p with
  | JS.Fulfilled a => ret a
  | JS.Rejected v => throw v
  end.

Notation "x <- m ;; k" := (bind m (fun x => k))
  (at level 61, m at next level, right associativity).
Notation "m ;; k" := (bind m (fun _ => k))
  (at level 61, right associativity).

(** *** Primitive effects *)

Definition emit (e : Effect) : M unit :=
  fun w =>
    (Normal tt,
     {| store := store w; files := files w; log := log w ++ [e] |}).

Definition update (change : State -> State) (e : Effect) : M unit :=
  fun w =>
    (Normal tt,
     {| store := change (store w); files := files w;
        log := log w ++ [e] |}).

Definition setLocation (v : LatLng) : M unit :=
  update (with_location v) (SetLocation v).
Definition setAddress (v : string) : M unit :=
  update (with_address v) (SetAddress v).
Definition setImages (v : list string) : M unit :=
  update (with_images v) (SetImages v).
Definition setError (v : option string) : M unit :=
  update (with_error v) (SetError v).
Definition setIsProcessing (v : bool) : M unit :=
  update (with_isProcessing v) (SetIsProcessing v).

Definition console_error (label : string) (v : JS.value) : M unit :=
  emit (ConsoleError label v).

(** [e.target.files] of the file input. *)
Definition e_target_files : M (option (list File)) :=
  fun w => (Normal (files w), w).

(** [e.target.value = ""] on the file input: the selection becomes
    empty. *)
Definition clear_e_target_value : M unit :=
  fun w =>
    (Normal tt,
     {| store := store w; files := Some []; log := log w ++ [ClearInput] |}).

(** [Array.from(x)]: a [TypeError] when [x] is [null]. *)
Definition Array_from {A} (x : option (list A)) : M (list A) :=
  match x with
  | Some xs => ret xs
  | None => throw (JS.ErrorObject "object null is not iterable")
  end.

(** [xs.map(f)] for a callback with effects. *)
Fixpoint Array_map {A B} (f : A -> M B) (xs : list A) : M (list B) :=
  match xs with
  | [] => ret []
  | x :: rest =>
      y <- f x ;;
      ys <- Array_map f rest ;;
      ret (y :: ys)
  end.

(** [xs.some(f)]: stops at the first element on which [f] answers
    [true]; an exception of [f] escapes. *)
Fixpoint Array_some {A} (f : A -> M bool) (xs : list A) : M bool :=
  match xs with
  | [] => ret false
  | x :: rest =>
      b <- f x ;;
      if b then ret true else Array_some f rest
  end.

(** [Promise.all(ps)]: every value in order, or a rejection of one of
    the promises.  Which rejection wins is a matter of timing; the first in
    list order is taken here, and the component only logs it. *)
Fixpoint Promise_all {A} (ps : list (JS.settled A)) : JS.settled (list A) :=
  match ps with
  | [] => JS.Fulfilled []
  | JS.Rejected v :: _ => JS.Rejected v
  | JS.Fulfilled a :: rest =>
      match Promise_all rest with
      | JS.Fulfilled rest_values => JS.Fulfilled (a :: rest_values)
      | JS.Rejected v => JS.Rejected v
      end
  end.

(** *** [compressImage] (source lines 19-55) *)

(** The browser's image pipeline: [decode] is the outcome of loading the
    file into an [Image] ([onload] with the image's width and height, or
    [onerror]); [getContext2d] tells whether a canvas of the given size
    yields a 2d context; [toDataURL] is the JPEG data URL of the file drawn
    at the given size with quality 0.7. *)
Variable decode : File -> option (Z * Z).
Variable getContext2d : Z -> Z -> bool.
Variable toDataURL : File -> Z -> Z -> string.

Definition compressImage (file : File) : JS.settled string :=
  match decode file with
  | Some (img_width, img_height) =>
      let '(width, height) :=
        compressImage_dimensions img_width img_height in
      if negb (getContext2d width height) then
        JS.Rejected (JS.ErrorObject "Failed to get canvas context")
      else JS.Fulfilled (toDataURL file width height)
  | None => JS.Rejected (JS.ErrorObject "Failed to load image")
  end.

(** A call of [compressImage] from a handler. *)
Definition call_compressImage (file : File) : M (JS.settled string) :=
  emit (CompressCall file) ;;
  ret (compressImage file).

(** *** The handlers (source lines 89-179)

    Each takes the [State] of the render that created it: its closure. *)

Definition call_geocode (g : Geocoder) (request : GeocoderRequest)
  : M GeocoderResponse :=
  emit (GeocodeCall request) ;;
  await (geocode g request).

Definition handleMapClick (render : State) (e_latLng : option LatLng)
  : M unit :=
  match e_latLng, geocoder render with
  | Some latLng, Some the_geocoder =>
      let lat := lat latLng in
      let lng := lng latLng in
      setLocation {| lat := lat; lng := lng |} ;;
      try_catch
        (response <-
           call_geocode the_geocoder
             (ByLocation {| lat := lat; lng := lng |}) ;;
         match results response with
         | first :: _ => setAddress (formatted_address first)
         | [] => ret tt
         end)
        (fun error => console_error "Geocoding error:" error)
  | _, _ => return_
  end.

(** [response.results[0]?.geometry?.location] *)
Definition first_geometry_location (response : GeocoderResponse)
  : option LatLng :=
  match results response with
  | first :: _ =>
      match geometry first with
      | Some g => geometry_location g
      | None => None
      end
  | [] => None
  end.

Definition is_empty (s : string) : bool :=
  match s with
  | EmptyString => true
  | String _ _ => false
  end.

Definition handleAddressChange (render : State) (e_target_value : string)
  : M unit :=
  let newAddress := e_target_value in
  setAddress newAddress ;;
  match geocoder render with
  | Some the_geocoder =>
      if is_empty newAddress then return_
      else
        try_catch
          (response <- call_geocode the_geocoder (ByAddress newAddress) ;;
           match first_geometry_location response with
           | Some found =>
               let lat := lat found in
               let lng := lng found in
               setLocation {| lat := lat; lng := lng |}
           | None => ret tt
           end)
          (fun error => console_error "Geocoding error:" error)
  | None => return_
  end.

(** The callback of [compressedImages.some] (source lines 145-149).
    [sizeInBytes] is [undefined] when the data URL has no comma: reading
    [length] of [split(',')[1]] then throws.  The product by 0.75 is exact
    in doubles for every string length, so it is computed in [Q]. *)
Definition sizeInBytes (dataUrl : string) : option Q :=
  match nth_error (JS.split ","%char dataUrl) 1 with
  | Some payload =>
      let base64Length := Z.of_nat (String.length payload) in
      Some (inject_Z base64Length * (75 # 100))%Q
  | None => None
  end.

Definition exceeds_upload_size (dataUrl : string) : M bool :=
  match sizeInBytes dataUrl with
  | Some bytes => ret (negb (Qle_bool bytes (inject_Z MAX_UPLOAD_SIZE)))
  | None => throw (JS.ErrorObject "Cannot read properties of undefined")
  end.

Definition oversized_message (oversizedFiles : list File) : string :=
  ("Some images are too large (max "
     ++ JS.Number_toString (MAX_IMAGE_SIZE / 1024 / 1024) ++ "MB): "
     ++ JS.join ", " (map name oversizedFiles))%string.

Definition handleImageUpload (render : State) : M unit :=
  selection <- e_target_files ;;
  match selection with
  | None => return_
  | Some _ =>
      all_files <- Array_from selection ;;
      let oversizedFiles :=
        filter (fun file => size file >? MAX_IMAGE_SIZE) all_files in
      (if (0 <? length oversizedFiles)%nat then
         setError (Some (oversized_message oversizedFiles)) ;;
         clear_e_target_value ;;
         return_
       else ret tt) ;;
      setIsProcessing true ;;
      setError None ;;
      try_finally
        (try_catch
           (selection <- e_target_files ;;
            all_files <- Array_from selection ;;
            promises <- Array_map call_compressImage all_files ;;
            compressedImages <- await (Promise_all promises) ;;
            tooLarge <- Array_some exceeds_upload_size compressedImages ;;
            (if tooLarge then
               setError
                 (Some
                    "Images are still too large after compression. Please try smaller images.") ;;
               clear_e_target_value ;;
               return_
             else ret tt) ;;
            setImages (images render ++ compressedImages))
           (fun error =>
              console_error "Error processing images:" error ;;
              setError (Some "Failed to process images. Please try again.") ;;
              clear_e_target_value))
        (setIsProcessing false)
  end.

(** The caller-supplied submission handler (the [onSubmit] prop). *)
Variable onSubmit : FormData -> JS.settled unit.

Definition call_onSubmit (formData : FormData) : M unit :=
  emit (SubmitCall formData) ;;
  await (onSubmit formData).

(** [err instanceof Error ? err.message : "An error occurred ..."] *)
Definition shown (err : JS.value) : string :=
  match err with
  | JS.ErrorObject message => message
  | JS.NonError _ => "An error occurred while registering"
  end.

Definition handleSubmit (render : State) (formData : FormData) : M unit :=
  try_catch
    (setError None ;;
     (if (length (images render) <? 3)%nat then
        setError (Some "Please upload at least 3 images") ;;
        return_
      else ret tt) ;;
     call_onSubmit formData)
    (fun err =>
       setError (Some (shown err)) ;;
       console_error "Registration error:" err).

(** *** The rendered form (source lines 181-281) *)

(** [JSON.stringify(location)] *)
Definition JSON_stringify (l : LatLng) : string :=
  ("{" ++ dquote ++ "lat" ++ dquote ++ ":" ++ JSON_stringify_number (lat l)
     ++ "," ++ dquote ++ "lng" ++ dquote ++ ":"
     ++ JSON_stringify_number (lng l) ++ "}")%string.

(** What the user typed in the two uncontrolled text fields. *)
Record Typed : Type := { businessName : string; description : string }.

(** The named controls of the form and their values, in tree order.  The
    file input has no [name] and contributes no entry. *)
Definition form_entries (render : State) (typed : Typed) : FormData :=
  [ ("businessName", businessName typed);
    ("description", description typed);
    ("address", address render);
    ("location", JSON_stringify (location render)) ]
  ++ map (fun url => ("images", url)) (images render).

(** *** Events reaching the latest render *)

Definition on_map_click (e_latLng : option LatLng) (w : World) :=
  async_function (handleMapClick (store w) e_latLng) w.

Definition on_address_change (e_target_value : string) (w : World) :=
  async_function (handleAddressChange (store w) e_target_value) w.

Definition on_image_upload (w : World) :=
  async_function (handleImageUpload (store w)) w.

(** [<form action={handleSubmit}>]: the action receives the form's
    entries. *)
Definition on_form_submit (typed : Typed) (w : World) :=
  async_function
    (handleSubmit (store w) (form_entries (store w) typed)) w.

End NewMerchantForm.

Unset Implicit Arguments.

Arguments exceeds_upload_size {number} dataUrl w.
Arguments Array_some {number A} f xs w.
Arguments Array_map {number A B} f xs w.
Arguments Normal {A} a.
Arguments Return {A}.
Arguments Throw {A} v.
Arguments ByAddress {number} text.
Arguments SetAddress {number} v.
Arguments SetImages {number} v.
Arguments SetError {number} v.
Arguments SetIsProcessing {number} v.
Arguments ClearInput {number}.
Arguments CompressCall {number} file.
Arguments SubmitCall {number} formData.
Arguments ConsoleError {number} label v.

(** The effects performed between two worlds of one run. *)
Definition performed {number} (before after : World number)
  : list (Effect number) :=
  skipn (length (log before)) (log after).

Definition is_SetImages {number} (e : Effect number) : bool :=
  match e with SetImages _ => true | _ => false end.

Definition is_SubmitCall {number} (e : Effect number) : bool :=
  match e with SubmitCall _ => true | _ => false end.

Definition is_CompressCall {number} (e : Effect number) : bool :=
  match e with CompressCall _ => true | _ => false end.

(** [needle] occurs in [text]. *)
Definition occurs_in (needle text : string) : Prop :=
  exists before after, text = (before ++ needle ++ after)%string.

(** ** The worlds a batch can end in

    [started w fs] is the world once the batch [fs] passed the raw-size
    check and every compression was launched; the other three are the ends
    of the [try] block of [handleImageUpload], each followed by the
    [finally] clause. *)

Definition started {number} (w : World number) (fs : list File)
  : World number :=
  {| store := with_error None (with_isProcessing true (store w));
     files := files w;
     log := log w ++ [SetIsProcessing true; SetError None]
              ++ map CompressCall fs |}.

Definition failed_message : string :=
  "Failed to process images. Please try again.".

Definition too_large_message : string :=
  "Images are still too large after compression. Please try smaller images.".

Definition ended_failed {number} (v : JS.value) (w1 : World number)
  : World number :=
  {| store :=
       with_isProcessing false (with_error (Some failed_message) (store w1));
     files := Some [];
     log := log w1 ++ [ConsoleError "Error processing images:" v;
                       SetError (Some failed_message);
                       ClearInput; SetIsProcessing false] |}.

Definition ended_too_large {number} (w1 : World number) : World number :=
  {| store :=
       with_isProcessing false
         (with_error (Some too_large_message) (store w1));
     files := Some [];
     log := log w1 ++ [SetError (Some too_large_message);
                       ClearInput; SetIsProcessing false] |}.

Definition ended_appended {number} (all_images : list string)
  (w1 : World number) : World number :=
  {| store := with_isProcessing false (with_images all_images (store w1));
     files := files w1;
     log := log w1 ++ [SetImages all_images; SetIsProcessing false] |}.

Definition ended_oversized {number} (message : string) (w : World number)
  : World number :=
  {| store := with_error (Some message) (store w);
     files := Some [];
     log := log w ++ [SetError (Some message); ClearInput] |}.

Definition oversized (fs : list File) : list File :=
  filter (fun file => size file >? MAX_IMAGE_SIZE) fs.

(** The effective size of a data URL is within, or beyond, the upload
    ceiling. *)
Definition fits (dataUrl : string) : Prop :=
  exists bytes,
    sizeInBytes dataUrl = Some bytes
    /\ (bytes <= inject_Z MAX_UPLOAD_SIZE)%Q.

Definition too_big (dataUrl : string) : Prop :=
  exists bytes,
    sizeInBytes dataUrl = Some bytes
    /\ (inject_Z MAX_UPLOAD_SIZE < bytes)%Q.

(** The world in which a batch that passed the raw-size check ends.  The
    size check never completes with [Return]; that branch is there for the
    match to be total. *)
Definition batch_end {number} (decode : File -> option (Z * Z))
  (getContext2d : Z -> Z -> bool) (toDataURL : File -> Z -> Z -> string)
  (w : World number) (fs : list File) : World number :=
  match Promise_all (map (compressImage decode getContext2d toDataURL) fs) with
  | JS.Rejected v => ended_failed v (started w fs)
  | JS.Fulfilled urls =>
      match fst (Array_some exceeds_upload_size urls (started w fs)) with
      | Normal true => ended_too_large (started w fs)
      | Normal false =>
          ended_appended (images (store w) ++ urls) (started w fs)
      | Return => started w fs
      | Throw v => ended_failed v (started w fs)
      end
  end.

(** ** The rest of the component *)

Definition with_geocoder {number} (v : option (Geocoder number))
  (s : State number) : State number :=
  {| location := location s; address := address s; images := images s;
     geocoder := v; error := error s; isProcessing := isProcessing s |}.

(** The effect of source lines 83-87: once the maps script [isLoaded], the
    geocoder cell receives [new google.maps.Geocoder()]. *)
Definition useEffect_isLoaded {number} (isLoaded : bool)
  (new_Geocoder : Geocoder number) (w : World number) : World number :=
  if isLoaded then
    {| store := with_geocoder (Some new_Geocoder) (store w);
       files := files w; log := log w |}
  else w.

(** [{error && (<div ...>{error}</div>)}] (source lines 191-195): the text
    of the banner, if one is rendered.  [null] and the empty string are
    falsy. *)
Definition error_banner {number} (render : State number) : option string :=
  match error render with
  | Some (String c rest) => Some (String c rest)
  | Some EmptyString => None
  | None => None
  end.

(** [formData.getAll(field)] *)
Definition FormData_getAll (field : string) (fd : FormData) : list string :=
  map snd (filter (fun entry => String.eqb (fst entry) field) fd).

(** No character of the string is a comma. *)
Fixpoint comma_free (s : string) : bool :=
  match s with
  | EmptyString => true
  | String c rest => negb (Ascii.eqb c ","%char) && comma_free rest
  end.

(** *** A session: the events that reach the component, one after another *)

Inductive Event (number : Type) : Type :=
| MapsLoaded (new_Geocoder : Geocoder number)
| MapClick (e_latLng : option (LatLng number))
| AddressChange (e_target_value : string)
| FilesChange (selection : option (list File))
| FormSubmit (typed : Typed).
Arguments MapsLoaded {number} new_Geocoder.
Arguments MapClick {number} e_latLng.
Arguments AddressChange {number} e_target_value.
Arguments FilesChange {number} selection.
Arguments FormSubmit {number} typed.

(** The browser puts the user's choice in the file input before the change
    event fires. *)
Definition choose {number} (selection : option (list File))
  (w : World number) : World number :=
  {| store := store w; files := selection; log := log w |}.

Section Session.

Variable number : Type.
Variable JSON_stringify_number : number -> string.
Variable decode : File -> option (Z * Z).
Variable getContext2d : Z -> Z -> bool.
Variable toDataURL : File -> Z -> Z -> string.
Variable onSubmit : FormData -> JS.settled unit.

Definition react (ev : Event number) (w : World number) : World number :=
  match ev with
  | MapsLoaded new_Geocoder => useEffect_isLoaded true new_Geocoder w
  | MapClick e_latLng => snd (on_map_click e_latLng w)
  | AddressChange e_target_value =>
      snd (on_address_change e_target_value w)
  | FilesChange selection =>
      snd (on_image_upload decode getContext2d toDataURL
             (choose selection w))
  | FormSubmit typed =>
      snd (on_form_submit JSON_stringify_number onSubmit typed w)
  end.

Definition session (events : list (Event number)) (w : World number)
  : World number :=
  fold_left (fun current ev => react ev current) events w.

(** The world of the first render: the initial state, an empty file
    selection, nothing done yet. *)
Definition first_render (CHIANG_MAI : LatLng number) : World number :=
  {| store := initial_state CHIANG_MAI; files := Some []; log := [] |}.

End Session.

Arguments react {number} JSON_stringify_number decode getContext2d toDataURL
  onSubmit ev w.
Arguments session {number} JSON_stringify_number decode getContext2d
  toDataURL onSubmit events w.
Arguments first_render {number} CHIANG_MAI.

(** A submission recorded in the log carries at least three images, each
    within the upload ceiling. *)
Definition well_submitted {number} (e : Effect number) : Prop :=
  match e with
  | SubmitCall formData =>
      (3 <= length (FormData_getAll "images" formData))%nat
      /\ Forall fits (FormData_getAll "images" formData)
  | _ => True
  end.

(** What the session invariants need from one event: the cells it leaves
    alone, and that it logs no ill-formed submission. *)
Definition quiet {number} (w w' : World number) : Prop :=
  images (store w') = images (store w)
  /\ isProcessing (store w') = isProcessing (store w)
  /\ geocoder (store w') = geocoder (store w)
  /\ exists trace,
       log w' = log w ++ trace /\ Forall well_submitted trace.

(** The invariant of a session. *)
Definition settled_form {number} (w : World number) : Prop :=
  isProcessing (store w) = false
  /\ Forall fits (images (store w))
  /\ Forall well_submitted (log w).

(** ** The other version of the component ([src/unnamed/part_000])

    It keeps four state cells only (no error, no processing flag), hands
    [onSubmit] to the form directly and gates the submit button on the
    number of images.  Its upload handler is run in the same world; the two
    cells it does not have are carried along untouched. *)

Module Legacy.

Section Upload.

Variable number : Type.

(** [URL.createObjectURL(file)] *)
Variable createObjectURL : File -> string.

(** Source lines 71-78 of [part_000]. *)
Definition handleImageUpload (render : State number) : M number unit :=
  bind (@e_target_files number)
    (fun selection =>
       match selection with
       | None => @return_ number unit
       | Some _ =>
           bind (Array_from selection)
             (fun all_files =>
                let newImages := map createObjectURL all_files in
                setImages (images render ++ newImages))
       end).

Definition on_image_upload (w : World number) :=
  async_function (handleImageUpload (store w)) w.

(** [<Button type="submit" disabled={images.length < 3}>] *)
Definition submit_disabled (render : State number) : bool :=
  (length (images render) <? 3)%nat.

End Upload.

End Legacy.

(** ** A concrete browser, for running the handlers *)

Module Demo.

Fixpoint doubled (k : nat) (s : string) : string :=
  match k with
  | O => s
  | S k' => doubled k' (s ++ s)%string
  end.

(** 2^21 base64 characters: a payload of 1.5 MiB. *)
Definition huge_payload : string := doubled 21 "A".

Definition decode (file : File) : option (Z * Z) :=
  if String.eqb (name file) "broken.png" then None else Some (4000, 3000).

Definition getContext2d (width height : Z) : bool := true.

Definition toDataURL (file : File) (width height : Z) : string :=
  if String.eqb (name file) "huge.jpg"
  then ("data:image/jpeg;base64," ++ huge_payload)%string
  else ("data:image/jpeg;base64," ++ name file)%string.

Definition accept (fd : FormData) : JS.settled unit := JS.Fulfilled tt.

Definition refuse (fd : FormData) : JS.settled unit :=
  JS.Rejected (JS.ErrorObject "Email already registered").

Definition refuse_oddly (fd : FormData) : JS.settled unit :=
  JS.Rejected (JS.NonError "503").

(** Whole-degree coordinates are enough to run the handlers. *)
Definition print (n : Z) : string := JS.Number_toString n.

Definition old_town : LatLng Z := {| lat := 18; lng := 98 |}.
Definition riverside : LatLng Z := {| lat := 19; lng := 99 |}.

Definition answering : Geocoder Z :=
  {| geocode := fun request =>
       JS.Fulfilled
         {| results :=
             [ {| formatted_address := "1 Tha Phae Rd";
                  geometry :=
                    Some {| geometry_location := Some riverside |} |} ] |} |}.

Definition failing : Geocoder Z :=
  {| geocode := fun request =>
       JS.Rejected (JS.ErrorObject "OVER_QUERY_LIMIT") |}.

Definition initial : State Z := initial_state old_town.

Definition ready : State Z :=
  {| location := old_town; address := "Old town"; images := ["data:,a"];
     geocoder := Some answering; error := None; isProcessing := false |}.

Definition complained : State Z :=
  {| location := old_town; address := "Old town"; images := ["data:,a"];
     geocoder := Some answering;
     error := Some "Please upload at least 3 images";
     isProcessing := false |}.

Definition stocked : State Z :=
  {| location := old_town; address := "Old town";
     images := ["data:,a"; "data:,b"; "data:,c"];
     geocoder := Some failing; error := None; isProcessing := false |}.

Definition shop : File := {| name := "shop.jpg"; size := 2 * 1024 * 1024 |}.
Definition menu : File := {| name := "menu.jpg"; size := 5 * 1024 * 1024 |}.
Definition raw : File := {| name := "raw.tiff"; size := 6 * 1024 * 1024 |}.
Definition broken : File := {| name := "broken.png"; size := 10 |}.
Definition huge : File := {| name := "huge.jpg"; size := 4 * 1024 * 1024 |}.

Definition selecting (s : State Z) (selection : option (list File))
  : World Z :=
  {| store := s; files := selection; log := [] |}.

Definition typed : Typed :=
  {| businessName := "Khao Soi House"; description := "Noodles" |}.

Definition encoded (file : File) : string := toDataURL file 1024 768.

Definition two_photos : World Z := selecting ready (Some [shop; menu]).
Definition with_raw : World Z := selecting ready (Some [shop; raw]).
Definition with_huge : World Z := selecting ready (Some [shop; huge]).
Definition with_broken : World Z := selecting ready (Some [shop; broken]).
Definition nothing_selected : World Z := selecting complained (Some []).
Definition before_geocoder : World Z := selecting initial None.
Definition one_image : World Z := selecting ready None.
Definition three_images : World Z := selecting stocked None.

Definition refuse_silently (fd : FormData) : JS.settled unit :=
  JS.Rejected (JS.ErrorObject EmptyString).

Definition sign : File := {| name := "sign.jpg"; size := 1024 |}.

Definition createObjectURL (file : File) : string :=
  ("blob:" ++ name file)%string.

(** An encoder that fails to produce a data URL for one of the files. *)
Definition toDataURL_bare (file : File) (width height : Z) : string :=
  if String.eqb (name file) "sign.jpg" then "data:"
  else toDataURL file width height.

Definition with_sign : World Z := selecting ready (Some [shop; sign]).

Definition visited : State Z :=
  {| location := riverside; address := "1 Tha Phae Rd";
     images := [encoded shop; encoded menu; encoded sign];
     geocoder := Some answering; error := None; isProcessing := false |}.

Definition visit : list (Event Z) :=
  [ MapsLoaded answering;
    MapClick (Some riverside);
    FilesChange (Some [shop; menu; sign]);
    FormSubmit typed ].

End Demo.

(** ** The canvas dimensions on examples *)

Example dims_small : compressImage_dimensions 800 600 = (800, 600).
Proof. reflexivity. Qed.

Example dims_landscape : compressImage_dimensions 4000 3000 = (1024, 768).
Proof. reflexivity. Qed.

Example dims_portrait : compressImage_dimensions 1000 3000 = (341, 1024).
Proof. reflexivity. Qed.

Example dims_tie_rounds_up : compressImage_dimensions 2048 1 = (1024, 1).
Proof. reflexivity. Qed.

(** ** Rounding lemmas *)

Lemma Math_round_bounds (a b : Z) :
  0 < b ->
  let r := JS.Math_round (inject_Z a / inject_Z b) in
  2 * b * r <= 2 * a + b < 2 * b * (r + 1).
Proof.
  intros Hb r.
  pose proof (Qfloor_le (inject_Z a / inject_Z b + (1 # 2))) as Hlo.
  pose proof (Qlt_floor (inject_Z a / inject_Z b + (1 # 2))) as Hhi.
  fold (JS.Math_round (inject_Z a / inject_Z b)) in Hlo, Hhi.
  fold r in Hlo, Hhi.
  destruct b as [|p|p]; try lia.
  unfold Qle, Qlt, Qdiv, Qinv, Qmult, Qplus, inject_Z in Hlo, Hhi.
  cbn [Qnum Qden] in Hlo, Hhi.
  rewrite ?Z.mul_1_r, ?Pos.mul_1_r, ?Pos.mul_1_l in Hlo, Hhi.
  rewrite ?Pos2Z.inj_mul in Hlo, Hhi.
  change (Z.pos 2) with 2 in *.
  split; nia.
Qed.

Lemma Math_round_div (a b : Z) :
  0 < b ->
  JS.Math_round (inject_Z a / inject_Z b) = (2 * a + b) / (2 * b).
Proof.
  intros Hb.
  pose proof (Math_round_bounds a b Hb) as H. cbv zeta in H.
  set (r := JS.Math_round (inject_Z a / inject_Z b)) in *.
  apply Z.div_unique_pos with (r := 2 * a + b - 2 * b * r); lia.
Qed.

(** ** Properties of the handlers *)

Section Properties.

Variable number : Type.
Variable JSON_stringify_number : number -> string.
Variable decode : File -> option (Z * Z).
Variable getContext2d : Z -> Z -> bool.
Variable toDataURL : File -> Z -> Z -> string.
Variable onSubmit : FormData -> JS.settled unit.

Local Abbreviation compress := (compressImage decode getContext2d toDataURL).
Local Abbreviation upload := (on_image_upload decode getContext2d toDataURL).
Local Abbreviation submit := (on_form_submit JSON_stringify_number onSubmit).
Local Abbreviation World := (World number).
Local Abbreviation finish := (batch_end decode getContext2d toDataURL).

Lemma performed_app (w w' : World) (trace : list (Effect number)) :
  log w' = log w ++ trace -> performed w w' = trace.
Proof.
  intros H. unfold performed. rewrite H.
  rewrite skipn_app, skipn_all, Nat.sub_diag. reflexivity.
Qed.

(** *** The raw-size check *)

Lemma no_oversized (fs : list File) :
  Forall (fun f => size f <= MAX_IMAGE_SIZE) fs ->
  filter (fun file => size file >? MAX_IMAGE_SIZE) fs = [].
Proof.
  induction 1 as [|f fs Hf _ IH]; simpl; [reflexivity|].
  destruct (Z.gtb_spec (size f) MAX_IMAGE_SIZE); [lia | exact IH].
Qed.

Lemma some_oversized (fs : list File) :
  Exists (fun f => MAX_IMAGE_SIZE < size f) fs ->
  (0 <? length (filter (fun file => size file >? MAX_IMAGE_SIZE) fs))%nat
  = true.
Proof.
  induction 1 as [f fs Hf | f fs _ IH]; simpl.
  - destruct (Z.gtb_spec (size f) MAX_IMAGE_SIZE); [reflexivity | lia].
  - destruct (size f >? MAX_IMAGE_SIZE); [reflexivity | exact IH].
Qed.

(** *** Launching the compressions *)

Lemma Array_map_call_compressImage (fs : list File) (w : World) :
  Array_map (call_compressImage decode getContext2d toDataURL) fs w
  = (Normal (map compress fs),
     {| store := store w; files := files w;
        log := log w ++ map CompressCall fs |}).
Proof.
  revert w. induction fs as [|f fs IH]; intros w; simpl.
  - unfold ret. rewrite app_nil_r. destruct w; reflexivity.
  - unfold bind at 1. unfold call_compressImage at 1.
    unfold bind at 1. unfold emit, ret at 1. unfold bind at 1.
    rewrite IH. unfold ret. simpl.
    rewrite <- app_assoc. reflexivity.
Qed.

(** *** [Promise.all] *)

Lemma Promise_all_fulfilled {A} (values : list A) :
  Promise_all (map JS.Fulfilled values) = JS.Fulfilled values.
Proof.
  induction values as [|a values IH]; simpl; [reflexivity|].
  rewrite IH. reflexivity.
Qed.

Lemma Promise_all_rejected {A} (ps : list (JS.settled A)) :
  Exists (fun p => exists v, p = JS.Rejected v) ps ->
  exists v, Promise_all ps = JS.Rejected v.
Proof.
  induction 1 as [p ps [v ->] | p ps _ [v IH]]; simpl.
  - eauto.
  - destruct p; [rewrite IH|]; eauto.
Qed.

Lemma Promise_all_inv {A} (ps : list (JS.settled A)) (values : list A) :
  Promise_all ps = JS.Fulfilled values -> ps = map JS.Fulfilled values.
Proof.
  revert values. induction ps as [|p ps IH]; intros values; simpl.
  - intros [= <-]. reflexivity.
  - destruct p as [a|v]; [|discriminate].
    destruct (Promise_all ps) as [rest|v]; [|discriminate].
    intros [= <-]. simpl. f_equal. apply IH. reflexivity.
Qed.

(** *** The size check on the compressed images *)

Lemma exceeds_fits (dataUrl : string) (w : World) :
  fits dataUrl -> exceeds_upload_size dataUrl w = (Normal false, w).
Proof.
  intros (bytes & Hsize & Hle). unfold exceeds_upload_size.
  rewrite Hsize. apply Qle_bool_iff in Hle. rewrite Hle. reflexivity.
Qed.

Lemma exceeds_too_big (dataUrl : string) (w : World) :
  too_big dataUrl -> exceeds_upload_size dataUrl w = (Normal true, w).
Proof.
  intros (bytes & Hsize & Hlt). unfold exceeds_upload_size.
  rewrite Hsize.
  destruct (Qle_bool bytes (inject_Z MAX_UPLOAD_SIZE)) eqn:E;
    [|reflexivity].
  apply Qle_bool_iff in E. apply Qle_not_lt in E. contradiction.
Qed.

Lemma exceeds_cases (dataUrl : string) (w : World) :
  exceeds_upload_size dataUrl w = (Normal true, w)
  \/ exceeds_upload_size dataUrl w = (Normal false, w)
  \/ exists v, exceeds_upload_size dataUrl w = (Throw v, w).
Proof.
  unfold exceeds_upload_size.
  destruct (sizeInBytes dataUrl) as [bytes|].
  - destruct (Qle_bool bytes (inject_Z MAX_UPLOAD_SIZE)); auto.
  - right; right. eexists. reflexivity.
Qed.

Lemma Array_some_cases (urls : list string) (w : World) :
  Array_some exceeds_upload_size urls w = (Normal true, w)
  \/ Array_some exceeds_upload_size urls w = (Normal false, w)
  \/ exists v, Array_some exceeds_upload_size urls w = (Throw v, w).
Proof.
  induction urls as [|url urls IH]; simpl.
  - right; left. reflexivity.
  - unfold bind.
    destruct (exceeds_cases url w) as [E | [E | [v E]]]; rewrite E.
    + left. reflexivity.
    + exact IH.
    + right; right. eauto.
Qed.

Lemma Array_some_fits (urls : list string) (w : World) :
  Forall fits urls ->
  Array_some exceeds_upload_size urls w = (Normal false, w).
Proof.
  induction 1 as [|url urls Hfit _ IH]; simpl; [reflexivity|].
  unfold bind. rewrite (exceeds_fits _ w Hfit). exact IH.
Qed.

Lemma Array_some_too_big (urls : list string) (w : World) :
  Exists too_big urls ->
  Array_some exceeds_upload_size urls w <> (Normal false, w).
Proof.
  induction 1 as [url urls Hbig | url urls _ IH]; simpl; unfold bind.
  - rewrite (exceeds_too_big _ w Hbig). discriminate.
  - destruct (exceeds_cases url w) as [E | [E | [v E]]]; rewrite E;
      [discriminate | exact IH | discriminate].
Qed.

Lemma Array_some_sized_too_big (urls : list string) (w : World) :
  Forall (fun url => sizeInBytes url <> None) urls ->
  Exists too_big urls ->
  Array_some exceeds_upload_size urls w = (Normal true, w).
Proof.
  intros Hsized. induction 1 as [url urls Hbig | url urls _ IH];
    simpl; unfold bind.
  - rewrite (exceeds_too_big _ w Hbig). reflexivity.
  - inversion Hsized as [|? ? Hurl Hrest]; subst.
    destruct (exceeds_cases url w) as [E | [E | [v E]]]; rewrite E.
    + reflexivity.
    + apply IH. exact Hrest.
    + exfalso. unfold exceeds_upload_size in E.
      destruct (sizeInBytes url); [|congruence].
      unfold ret in E. discriminate.
Qed.

(** *** One run of [handleImageUpload] past the raw-size check *)

Lemma started_log (trace : list (Effect number)) (fs : list File) :
  ((trace ++ [SetIsProcessing true]) ++ [SetError None])
    ++ map CompressCall fs
  = trace ++ [SetIsProcessing true; SetError None] ++ map CompressCall fs.
Proof. rewrite <- !app_assoc. reflexivity. Qed.

Ltac finish_run :=
  cbv [clear_e_target_value return_ setImages setError setIsProcessing
       update console_error emit fst
       ended_too_large ended_appended ended_failed
       failed_message too_large_message];
  cbn [files store log];
  rewrite <- ?app_assoc; reflexivity.

Lemma upload_run (w : World) (fs : list File) :
  files w = Some fs ->
  Forall (fun f => size f <= MAX_IMAGE_SIZE) fs ->
  upload w = (JS.Fulfilled tt, finish w fs).
Proof.
  intros Hfiles Hsmall.
  destruct w as [st selection trace]. simpl in Hfiles. subst selection.
  unfold on_image_upload, handleImageUpload, async_function.
  unfold bind at 1. unfold e_target_files at 1. cbn [files store log].
  unfold bind at 1. unfold Array_from at 1, ret at 1.
  rewrite (no_oversized fs Hsmall).
  change (0 <? length (@nil File))%nat with false.
  cbv [bind setIsProcessing setError update try_finally try_catch
       e_target_files Array_from ret].
  cbn [files store log].
  rewrite Array_map_call_compressImage.
  cbn [files store log].
  rewrite started_log.
  unfold batch_end, started. cbn [files store log].
  destruct (Promise_all (map compress fs)) as [urls | v].
  - cbv [await ret].
    match goal with
    | |- context [Array_some _ _ ?W] =>
        destruct (Array_some_cases urls W) as [E | [E | [v E]]]; rewrite E
    end.
    + finish_run.
    + finish_run.
    + finish_run.
  - cbv [await throw]. finish_run.
Qed.

Lemma upload_null (w : World) :
  files w = None -> upload w = (JS.Fulfilled tt, w).
Proof.
  intros Hfiles.
  unfold on_image_upload, handleImageUpload, async_function.
  unfold bind at 1. unfold e_target_files at 1. rewrite Hfiles.
  reflexivity.
Qed.

Lemma upload_oversized (w : World) (fs : list File) :
  files w = Some fs ->
  Exists (fun f => MAX_IMAGE_SIZE < size f) fs ->
  upload w
  = (JS.Fulfilled tt, ended_oversized (oversized_message (oversized fs)) w).
Proof.
  intros Hfiles Hbig.
  destruct w as [st selection trace]. simpl in Hfiles. subst selection.
  unfold on_image_upload, handleImageUpload, async_function.
  unfold bind at 1. unfold e_target_files at 1. cbn [files store log].
  unfold bind at 1. unfold Array_from at 1, ret at 1.
  unfold bind at 1. rewrite (some_oversized fs Hbig).
  cbv [bind setError update clear_e_target_value return_ ended_oversized
       oversized].
  cbn [files store log]. rewrite <- ?app_assoc. reflexivity.
Qed.

Lemma small_or_oversized (fs : list File) :
  Forall (fun f => size f <= MAX_IMAGE_SIZE) fs
  \/ Exists (fun f => MAX_IMAGE_SIZE < size f) fs.
Proof.
  induction fs as [|f fs [IH | IH]].
  - left. constructor.
  - destruct (Z_le_gt_dec (size f) MAX_IMAGE_SIZE).
    + left. constructor; assumption.
    + right. apply Exists_cons_hd. lia.
  - right. apply Exists_cons_tl. exact IH.
Qed.

(** *** Strings *)

Lemma append_nil_r (s : string) : (s ++ EmptyString)%string = s.
Proof. induction s as [|c s IH]; simpl; [|rewrite IH]; reflexivity. Qed.

Lemma append_assoc (a b c : string) :
  ((a ++ b) ++ c)%string = (a ++ b ++ c)%string.
Proof. induction a as [|x a IH]; simpl; [|rewrite IH]; reflexivity. Qed.

Lemma occurs_in_refl (s : string) : occurs_in s s.
Proof.
  exists EmptyString, EmptyString. simpl. rewrite append_nil_r. reflexivity.
Qed.

Lemma occurs_in_append_l (needle text extra : string) :
  occurs_in needle text -> occurs_in needle (extra ++ text)%string.
Proof.
  intros (before & after & ->). exists (extra ++ before)%string, after.
  rewrite append_assoc. reflexivity.
Qed.

Lemma occurs_in_append_r (needle text extra : string) :
  occurs_in needle text -> occurs_in needle (text ++ extra)%string.
Proof.
  intros (before & after & ->). exists before, (after ++ extra)%string.
  rewrite !append_assoc. reflexivity.
Qed.

Lemma occurs_in_join (sep : string) (xs : list string) (x : string) :
  In x xs -> occurs_in x (JS.join sep xs).
Proof.
  induction xs as [|a xs IH]; [intros []|].
  intros [-> | Hin].
  - destruct xs as [|b xs]; [apply occurs_in_refl|].
    change (JS.join sep (x :: b :: xs))
      with (x ++ sep ++ JS.join sep (b :: xs))%string.
    apply occurs_in_append_r. apply occurs_in_refl.
  - destruct xs as [|b xs]; [destruct Hin|].
    change (JS.join sep (a :: b :: xs))
      with (a ++ sep ++ JS.join sep (b :: xs))%string.
    apply occurs_in_append_l, occurs_in_append_l. exact (IH Hin).
Qed.

Lemma oversized_message_names (fs : list File) (f : File) :
  In f fs -> MAX_IMAGE_SIZE < size f ->
  occurs_in (name f) (oversized_message (oversized fs)).
Proof.
  intros Hin Hbig. unfold oversized_message.
  do 3 apply occurs_in_append_l.
  apply occurs_in_join. apply in_map. unfold oversized.
  apply filter_In. split; [exact Hin|]. apply Z.gtb_lt. exact Hbig.
Qed.

(** *** What a batch past the raw-size check ends in *)

Lemma batch_end_cases (w : World) (fs : list File) :
  (exists v, finish w fs = ended_failed v (started w fs))
  \/ finish w fs = ended_too_large (started w fs)
  \/ (exists urls,
        map compress fs = map JS.Fulfilled urls
        /\ finish w fs
           = ended_appended (images (store w) ++ urls) (started w fs)).
Proof.
  unfold batch_end.
  destruct (Promise_all (map compress fs)) as [urls | v] eqn:Hall.
  - destruct (Array_some_cases urls (started w fs)) as [E | [E | [v E]]];
      rewrite E; cbn [fst]; eauto.
    right; right. exists urls. split; [|reflexivity].
    apply Promise_all_inv. exact Hall.
  - eauto.
Qed.

Lemma batch_end_fits (w : World) (fs : list File) (urls : list string) :
  map compress fs = map JS.Fulfilled urls ->
  Forall fits urls ->
  finish w fs = ended_appended (images (store w) ++ urls) (started w fs).
Proof.
  intros Hall Hfits. unfold batch_end.
  rewrite Hall, Promise_all_fulfilled.
  rewrite (Array_some_fits urls _ Hfits). reflexivity.
Qed.

Lemma batch_end_too_big (w : World) (fs : list File) (urls : list string) :
  map compress fs = map JS.Fulfilled urls ->
  Exists too_big urls ->
  finish w fs = ended_too_large (started w fs)
  \/ exists v, finish w fs = ended_failed v (started w fs).
Proof.
  intros Hall Hbig. unfold batch_end.
  rewrite Hall, Promise_all_fulfilled.
  pose proof (Array_some_too_big urls (started w fs) Hbig) as Hnot.
  destruct (Array_some_cases urls (started w fs)) as [E | [E | [v E]]];
    rewrite E in *; cbn [fst]; eauto.
  congruence.
Qed.

Lemma batch_end_rejected (w : World) (fs : list File) :
  Exists (fun f => exists v, compress f = JS.Rejected v) fs ->
  exists v, finish w fs = ended_failed v (started w fs).
Proof.
  intros Hrej. unfold batch_end.
  destruct (Promise_all_rejected (map compress fs)) as [v Hall].
  - apply Exists_map. exact Hrej.
  - rewrite Hall. eauto.
Qed.

Lemma no_SetImages_in_calls (fs : list File) :
  filter is_SetImages (map (@CompressCall number) fs) = [].
Proof. induction fs as [|f fs IH]; simpl; [reflexivity | exact IH]. Qed.

Lemma performed_started (w : World) (fs : list File)
  (w' : World) (rest : list (Effect number)) :
  log w' = log (started w fs) ++ rest ->
  performed w w'
  = [SetIsProcessing true; SetError None] ++ map CompressCall fs ++ rest.
Proof.
  intros H. apply performed_app. rewrite H. unfold started.
  cbn [log]. rewrite <- !app_assoc. reflexivity.
Qed.

(** *** One run of [handleSubmit] *)

Lemma submit_short (w : World) (typed : Typed) :
  (length (images (store w)) < 3)%nat ->
  submit typed w
  = (JS.Fulfilled tt,
     {| store :=
          with_error (Some "Please upload at least 3 images")
            (with_error None (store w));
        files := files w;
        log := log w ++ [SetError None;
                         SetError (Some "Please upload at least 3 images")]
     |}).
Proof.
  intros Hshort. apply Nat.ltb_lt in Hshort.
  unfold on_form_submit, handleSubmit, async_function.
  rewrite Hshort.
  cbv [try_catch bind setError update return_].
  cbn [files store log]. rewrite <- ?app_assoc. reflexivity.
Qed.

Lemma submit_full (w : World) (typed : Typed) :
  (3 <= length (images (store w)))%nat ->
  let formData := form_entries JSON_stringify_number (store w) typed in
  submit typed w
  = (JS.Fulfilled tt,
     match onSubmit formData with
     | JS.Fulfilled _ =>
         {| store := with_error None (store w);
            files := files w;
            log := log w ++ [SetError None; SubmitCall formData] |}
     | JS.Rejected v =>
         {| store := with_error (Some (shown v)) (with_error None (store w));
            files := files w;
            log := log w ++ [SetError None; SubmitCall formData;
                             SetError (Some (shown v));
                             ConsoleError "Registration error:" v] |}
     end).
Proof.
  intros Hfull formData. apply Nat.ltb_ge in Hfull.
  unfold on_form_submit, handleSubmit, async_function.
  rewrite Hfull. fold formData.
  cbv [try_catch bind setError update ret call_onSubmit emit].
  cbn [files store log].
  destruct (onSubmit formData) as [[] | v];
    cbv [await ret throw console_error emit shown];
    cbn [files store log]; rewrite <- ?app_assoc; reflexivity.
Qed.

(** *** The image intake pipeline *)

(** C1: when every file of the selection is at most 5 MiB and compresses
    to a data URL whose effective size is at most 1 MiB, the upload
    handler appends the encodings, one per file and in selection order, to
    the end of the image list, by a single [setImages] update; the entries
    already present stay in place. *)
Theorem handleImageUpload_appends_batch
  (w : World) (fs : list File) (urls : list string) :
  files w = Some fs ->
  Forall (fun f => size f <= MAX_IMAGE_SIZE) fs ->
  map compress fs = map JS.Fulfilled urls ->
  Forall fits urls ->
  let w' := snd (upload w) in
  fst (upload w) = JS.Fulfilled tt
  /\ images (store w') = images (store w) ++ urls
  /\ length urls = length fs
  /\ filter is_SetImages (performed w w')
     = [SetImages (images (store w) ++ urls)].
Proof.
  intros Hfiles Hsmall Hall Hfits w'. subst w'.
  rewrite (upload_run w fs Hfiles Hsmall). cbn [fst snd].
  rewrite (batch_end_fits w fs urls Hall Hfits).
  repeat split.
  - apply (f_equal (@length _)) in Hall.
    rewrite !length_map in Hall. symmetry. exact Hall.
  - erewrite (performed_started w fs) by reflexivity.
    cbn [app filter is_SetImages].
    rewrite filter_app, no_SetImages_in_calls. reflexivity.
Qed.

(** C2: when some file of the selection is larger than 5 MiB, the upload
    handler rejects the whole selection before any compression: the error
    becomes a message in which every offending file's name occurs, the
    file input is cleared, and the image list and the processing flag are
    as before. *)
Theorem handleImageUpload_rejects_oversized (w : World) (fs : list File) :
  files w = Some fs ->
  Exists (fun f => MAX_IMAGE_SIZE < size f) fs ->
  let w' := snd (upload w) in
  let message := oversized_message (oversized fs) in
  fst (upload w) = JS.Fulfilled tt
  /\ error (store w') = Some message
  /\ (forall f, In f fs -> MAX_IMAGE_SIZE < size f ->
                occurs_in (name f) message)
  /\ files w' = Some []
  /\ images (store w') = images (store w)
  /\ isProcessing (store w') = isProcessing (store w)
  /\ performed w w' = [SetError (Some message); ClearInput]
  /\ filter is_CompressCall (performed w w') = [].
Proof.
  intros Hfiles Hbig w' message. subst w' message.
  rewrite (upload_oversized w fs Hfiles Hbig). cbn [fst snd].
  assert (Htrace :
            performed w
              (ended_oversized (oversized_message (oversized fs)) w)
            = [SetError (Some (oversized_message (oversized fs)));
               ClearInput]).
  { apply performed_app. reflexivity. }
  repeat split.
  - intros f Hin Hf. apply oversized_message_names; assumption.
  - exact Htrace.
  - rewrite Htrace. reflexivity.
Qed.

(** C3: when the selection passed the raw-size check and every
    compression succeeded, but the effective size of one result (three
    quarters of the length of its base64 payload) exceeds 1 MiB, the whole
    batch is rejected: an error is set, the file input is cleared, and no
    entry of the batch reaches the image list. *)
Theorem handleImageUpload_rejects_large_result
  (w : World) (fs : list File) (urls : list string) :
  files w = Some fs ->
  Forall (fun f => size f <= MAX_IMAGE_SIZE) fs ->
  map compress fs = map JS.Fulfilled urls ->
  Exists too_big urls ->
  let w' := snd (upload w) in
  fst (upload w) = JS.Fulfilled tt
  /\ error (store w') <> None
  /\ files w' = Some []
  /\ images (store w') = images (store w)
  /\ filter is_SetImages (performed w w') = []
  /\ (Forall (fun url => sizeInBytes url <> None) urls ->
      error (store w') = Some too_large_message).
Proof.
  intros Hfiles Hsmall Hall Hbig w'. subst w'.
  rewrite (upload_run w fs Hfiles Hsmall). cbn [fst snd].
  assert (Hsized :
            Forall (fun url => sizeInBytes url <> None) urls ->
            finish w fs = ended_too_large (started w fs)).
  { intros Hsized. unfold batch_end.
    rewrite Hall, Promise_all_fulfilled.
    rewrite (Array_some_sized_too_big urls _ Hsized Hbig). reflexivity. }
  destruct (batch_end_too_big w fs urls Hall Hbig) as [E | [v E]].
  - rewrite E. repeat split; try discriminate.
    erewrite (performed_started w fs) by reflexivity.
    cbn [app filter is_SetImages].
    rewrite filter_app, no_SetImages_in_calls. reflexivity.
  - repeat split; try (rewrite E; cbn; try discriminate; reflexivity).
    + rewrite E.
      erewrite (performed_started w fs) by reflexivity.
      cbn [app filter is_SetImages].
      rewrite filter_app, no_SetImages_in_calls. reflexivity.
    + intros Hs. rewrite (Hsized Hs). reflexivity.
Qed.

(** C7: on every run of the upload handler that passes the raw-size
    check, the processing flag is false at the end and resetting it is the
    last effect; when some compression of the batch fails, the run ends
    with the generic error, a cleared file input, and an unchanged image
    list. *)
Theorem handleImageUpload_resets_processing (w : World) (fs : list File) :
  files w = Some fs ->
  Forall (fun f => size f <= MAX_IMAGE_SIZE) fs ->
  let w' := snd (upload w) in
  fst (upload w) = JS.Fulfilled tt
  /\ isProcessing (store w') = false
  /\ (exists earlier,
        performed w w' = earlier ++ [SetIsProcessing false])
  /\ (Exists (fun f => exists v, compress f = JS.Rejected v) fs ->
      error (store w') = Some failed_message
      /\ files w' = Some []
      /\ images (store w') = images (store w)
      /\ filter is_SetImages (performed w w') = []).
Proof.
  intros Hfiles Hsmall w'. subst w'.
  rewrite (upload_run w fs Hfiles Hsmall). cbn [fst snd].
  split; [reflexivity|]. split; [|split].
  - destruct (batch_end_cases w fs) as [[v E] | [E | (urls & _ & E)]];
      rewrite E; reflexivity.
  - destruct (batch_end_cases w fs) as [[v E] | [E | (urls & _ & E)]];
      rewrite E.
    + exists ([SetIsProcessing true; SetError None] ++ map CompressCall fs
              ++ [ConsoleError "Error processing images:" v;
                  SetError (Some failed_message); ClearInput]).
      erewrite (performed_started w fs) by reflexivity.
      cbn [app]. rewrite <- !app_assoc. reflexivity.
    + exists ([SetIsProcessing true; SetError None] ++ map CompressCall fs
              ++ [SetError (Some too_large_message); ClearInput]).
      erewrite (performed_started w fs) by reflexivity.
      cbn [app]. rewrite <- !app_assoc. reflexivity.
    + exists ([SetIsProcessing true; SetError None] ++ map CompressCall fs
              ++ [SetImages (images (store w) ++ urls)]).
      erewrite (performed_started w fs) by reflexivity.
      cbn [app]. rewrite <- !app_assoc. reflexivity.
  - intros Hrej. destruct (batch_end_rejected w fs Hrej) as [v E].
    rewrite E. repeat split.
    erewrite (performed_started w fs) by reflexivity.
    cbn [app filter is_SetImages].
    rewrite filter_app, no_SetImages_in_calls. reflexivity.
Qed.

(** C6, amended: an upload event whose file list is [null] changes
    nothing.  An upload event with an empty file list leaves the image
    list, the location and the address as they were, but it clears the
    error and ends with the processing flag false. *)
Theorem handleImageUpload_empty_selection (w : World) :
  (files w = None -> upload w = (JS.Fulfilled tt, w))
  /\ (files w = Some [] ->
      let w' := snd (upload w) in
      images (store w') = images (store w)
      /\ location (store w') = location (store w)
      /\ address (store w') = address (store w)
      /\ files w' = Some []
      /\ error (store w') = None
      /\ isProcessing (store w') = false).
Proof.
  split; [apply upload_null|].
  intros Hfiles w'. subst w'.
  rewrite (upload_run w [] Hfiles (Forall_nil _)). cbn [fst snd].
  unfold batch_end. cbn [map Promise_all Array_some ret fst].
  cbn. rewrite app_nil_r. repeat split. exact Hfiles.
Qed.

(** *** The submission gate *)

(** C5: a submission with fewer than three images never calls the
    external handler and sets the insufficient-count error; a submission
    with three or more images calls the external handler exactly once, with
    form data whose [location] field is the JSON encoding of the current
    location. *)
Theorem handleSubmit_gate (w : World) (typed : Typed) :
  let w' := snd (submit typed w) in
  ((length (images (store w)) < 3)%nat ->
   filter is_SubmitCall (performed w w') = []
   /\ error (store w') = Some "Please upload at least 3 images")
  /\ ((3 <= length (images (store w)))%nat ->
      exists formData,
        filter is_SubmitCall (performed w w') = [SubmitCall formData]
        /\ FormData_get "location" formData
           = Some (JSON_stringify JSON_stringify_number
                     (location (store w)))).
Proof.
  intros w'. subst w'. split.
  - intros Hshort. rewrite (submit_short w typed Hshort). cbn [snd].
    erewrite performed_app by reflexivity. split; reflexivity.
  - intros Hfull. rewrite (submit_full w typed Hfull). cbn [snd].
    exists (form_entries JSON_stringify_number (store w) typed).
    split; [|reflexivity].
    destruct (onSubmit (form_entries JSON_stringify_number (store w) typed));
      erewrite performed_app by reflexivity; reflexivity.
Qed.

(** C9, amended: when the external handler rejects, [handleSubmit] still
    completes normally; the error becomes the message of the thrown value
    whenever that value is an [Error], also when the message is empty, and
    the generic text when the thrown value is not an [Error]; the image list
    is unchanged. *)
Theorem handleSubmit_catches (w : World) (typed : Typed) (v : JS.value) :
  (3 <= length (images (store w)))%nat ->
  onSubmit (form_entries JSON_stringify_number (store w) typed)
  = JS.Rejected v ->
  let w' := snd (submit typed w) in
  fst (submit typed w) = JS.Fulfilled tt
  /\ error (store w')
     = Some match v with
            | JS.ErrorObject message => message
            | JS.NonError _ => "An error occurred while registering"
            end
  /\ images (store w') = images (store w).
Proof.
  intros Hfull Hrejected w'. subst w'.
  rewrite (submit_full w typed Hfull). cbv zeta. rewrite Hrejected.
  cbn [fst snd]. repeat split.
Qed.

(** *** Location and address *)

(** C8, amended: a map click that carries coordinates, made once the
    geocoder exists, sets the location to the clicked coordinates before
    the geocoder is called and whatever it answers; the address is
    replaced by the first result's formatted address when the lookup
    succeeds with a result, and is unchanged when it fails or finds
    nothing; the error is never touched.  A click without coordinates, or
    made before the geocoder exists, changes nothing. *)
Theorem handleMapClick_sets_location
  (w : World) (e_latLng : option (LatLng number)) :
  let w' := snd (on_map_click e_latLng w) in
  fst (on_map_click e_latLng w) = JS.Fulfilled tt
  /\ error (store w') = error (store w)
  /\ match e_latLng, geocoder (store w) with
     | Some latLng, Some the_geocoder =>
         location (store w') = latLng
         /\ (exists later,
               performed w w'
               = SetLocation latLng :: GeocodeCall (ByLocation latLng)
                   :: later)
         /\ address (store w')
            = match geocode the_geocoder (ByLocation latLng) with
              | JS.Fulfilled response =>
                  match results response with
                  | first :: _ => formatted_address first
                  | [] => address (store w)
                  end
              | JS.Rejected _ => address (store w)
              end
     | _, _ => w' = w
     end.
Proof.
  intros w'. subst w'.
  unfold on_map_click, handleMapClick, async_function.
  destruct e_latLng as [[clicked_lat clicked_lng]|];
    [|repeat split; destruct (geocoder (store w)); reflexivity].
  destruct (geocoder (store w)) as [the_geocoder|]; [|repeat split].
  cbv [bind setLocation update try_catch call_geocode emit ret].
  cbn [lat lng files store log].
  destruct (geocode the_geocoder
              (ByLocation {| lat := clicked_lat; lng := clicked_lng |}))
    as [[[|first others]] | v];
    cbv [await ret throw setAddress update console_error emit];
    cbn [results files store log fst snd];
    (repeat split;
     eexists; apply performed_app; cbn [log];
     rewrite <- ?app_assoc; reflexivity).
Qed.

(** C10: the upload handler never changes the location or the address,
    and the two geocoding handlers never change the image list, the
    error, or the processing flag, whatever the geocoder answers. *)
Theorem handlers_touch_disjoint_state (w : World) :
  (let w' := snd (upload w) in
   location (store w') = location (store w)
   /\ address (store w') = address (store w))
  /\ (forall e_latLng,
        let w' := snd (on_map_click e_latLng w) in
        images (store w') = images (store w)
        /\ error (store w') = error (store w)
        /\ isProcessing (store w') = isProcessing (store w))
  /\ (forall e_target_value,
        let w' := snd (on_address_change e_target_value w) in
        images (store w') = images (store w)
        /\ error (store w') = error (store w)
        /\ isProcessing (store w') = isProcessing (store w)).
Proof.
  split; [|split].
  - cbv zeta. destruct (files w) as [fs|] eqn:Hfiles.
    + destruct (small_or_oversized fs) as [Hsmall | Hbig].
      * rewrite (upload_run w fs Hfiles Hsmall). cbn [snd].
        destruct (batch_end_cases w fs) as [[v E] | [E | (urls & _ & E)]];
          rewrite E; split; reflexivity.
      * rewrite (upload_oversized w fs Hfiles Hbig). split; reflexivity.
    + rewrite (upload_null w Hfiles). split; reflexivity.
  - intros e_latLng w'. subst w'.
    unfold on_map_click, handleMapClick, async_function.
    destruct e_latLng as [latLng|]; [|repeat split].
    destruct (geocoder (store w)) as [the_geocoder|]; [|repeat split].
    cbv [bind setLocation update try_catch call_geocode emit ret].
    cbn [files store log].
    destruct (geocode the_geocoder _) as [[[|first others]] | v];
      cbv [await ret throw setAddress update console_error emit];
      cbn [results files store log fst snd]; repeat split.
  - intros e_target_value w'. subst w'.
    unfold on_address_change, handleAddressChange, async_function.
    cbv [bind setAddress update]. cbn [files store log].
    destruct (geocoder (store w)) as [the_geocoder|]; [|repeat split].
    destruct (is_empty e_target_value); [repeat split|].
    cbv [try_catch call_geocode bind emit ret]. cbn [files store log].
    destruct (geocode the_geocoder _) as [response | v];
      cbv [await ret throw setLocation update console_error emit];
      [destruct (first_geometry_location response)|];
      cbn [files store log fst snd]; repeat split.
Qed.

End Properties.

(** ** The canvas dimensions *)

(** C4: [compressImage] keeps the dimensions of a bitmap whose longer side
    is at most 1024 pixels; otherwise the longer side becomes exactly 1024
    and the other side is [other * 1024 / longer] rounded to the nearest
    integer (ties upwards).  The longer side of the result is therefore at
    most 1024, and the result differs from the exact rescaling by at most
    half a pixel. *)
Theorem compressImage_dimensions_bounded (w h : Z) :
  0 <= w -> 0 <= h ->
  let '(w', h') := compressImage_dimensions w h in
  (Z.max w h <= 1024 -> (w', h') = (w, h))
  /\ (1024 < Z.max w h -> h < w ->
      w' = 1024
      /\ h' = JS.Math_round (inject_Z (h * 1024) / inject_Z w)
      /\ h' = (2 * (h * 1024) + w) / (2 * w))
  /\ (1024 < Z.max w h -> w <= h ->
      h' = 1024
      /\ w' = JS.Math_round (inject_Z (w * 1024) / inject_Z h)
      /\ w' = (2 * (w * 1024) + h) / (2 * h))
  /\ Z.max w' h' <= 1024
  /\ 2 * Z.abs (w' * h - h' * w) <= Z.max w h.
Proof.
  intros Hw Hh. unfold compressImage_dimensions. cbv zeta.
  destruct (Z.gtb_spec w h) as [Hwh | Hwh];
    [destruct (Z.gtb_spec w 1024) as [Hbig | Hbig]
    |destruct (Z.gtb_spec h 1024) as [Hbig | Hbig]].
  - pose proof (Math_round_bounds (h * 1024) w ltac:(lia)) as Hr.
    pose proof (Math_round_div (h * 1024) w ltac:(lia)) as Hd.
    cbv zeta in Hr.
    set (r := JS.Math_round (inject_Z (h * 1024) / inject_Z w)) in *.
    repeat split; try lia; try nia.
  - repeat split; try lia.
  - pose proof (Math_round_bounds (w * 1024) h ltac:(lia)) as Hr.
    pose proof (Math_round_div (w * 1024) h ltac:(lia)) as Hd.
    cbv zeta in Hr.
    set (r := JS.Math_round (inject_Z (w * 1024) / inject_Z h)) in *.
    repeat split; try lia; try nia.
  - repeat split; try lia.
Qed.

(** ** Runs on the concrete browser *)

Example run_two_photos :
  snd (on_image_upload Demo.decode Demo.getContext2d Demo.toDataURL
         (Demo.selecting Demo.ready (Some [Demo.shop; Demo.menu])))
  = {| store :=
         {| location := Demo.old_town; address := "Old town";
            images := ["data:,a"; "data:image/jpeg;base64,shop.jpg";
                       "data:image/jpeg;base64,menu.jpg"];
            geocoder := Some Demo.answering; error := None;
            isProcessing := false |};
       files := Some [Demo.shop; Demo.menu];
       log := [SetIsProcessing true; SetError None;
               CompressCall Demo.shop; CompressCall Demo.menu;
               SetImages ["data:,a"; "data:image/jpeg;base64,shop.jpg";
                          "data:image/jpeg;base64,menu.jpg"];
               SetIsProcessing false] |}.
Proof. reflexivity. Qed.

Example run_six_mebibytes :
  error
    (store
       (snd (on_image_upload Demo.decode Demo.getContext2d Demo.toDataURL
               (Demo.selecting Demo.initial (Some [Demo.raw])))))
  = Some "Some images are too large (max 5MB): raw.tiff".
Proof. reflexivity. Qed.

Example run_submit_refused :
  log
    (snd (on_form_submit Demo.print Demo.refuse Demo.typed
            (Demo.selecting Demo.stocked None)))
  = [SetError None;
     SubmitCall
       [("businessName", "Khao Soi House"); ("description", "Noodles");
        ("address", "Old town");
        ("location",
          "{" ++ dquote ++ "lat" ++ dquote ++ ":18," ++ dquote ++ "lng"
            ++ dquote ++ ":98}")%string;
        ("images", "data:,a"); ("images", "data:,b"); ("images", "data:,c")];
     SetError (Some "Email already registered");
     ConsoleError "Registration error:"
       (JS.ErrorObject "Email already registered")].
Proof. reflexivity. Qed.

Example run_submit_refused_oddly :
  error
    (store
       (snd (on_form_submit Demo.print Demo.refuse_oddly Demo.typed
               Demo.three_images)))
  = Some "An error occurred while registering".
Proof. reflexivity. Qed.

Example run_click_on_first_render :
  on_map_click (Some Demo.riverside) Demo.before_geocoder
  = (JS.Fulfilled tt, Demo.before_geocoder).
Proof. reflexivity. Qed.

Example split_data_url :
  JS.split "," "data:image/jpeg;base64,AAAA"
  = ["data:image/jpeg;base64"; "AAAA"].
Proof. reflexivity. Qed.

Example size_of_huge :
  sizeInBytes (Demo.encoded Demo.huge)
  = Some (inject_Z 2097152 * (75 # 100))%Q.
Proof. vm_compute. reflexivity. Qed.

(** ** The theorems at concrete inputs *)

Lemma size_fits (bytes : Q) (dataUrl : string) :
  sizeInBytes dataUrl = Some bytes ->
  Qle_bool bytes (inject_Z MAX_UPLOAD_SIZE) = true ->
  fits dataUrl.
Proof.
  intros Hsize Hle. exists bytes. split; [exact Hsize|].
  apply Qle_bool_iff. exact Hle.
Defined.

Lemma size_too_big (bytes : Q) (dataUrl : string) :
  sizeInBytes dataUrl = Some bytes ->
  Qle_bool bytes (inject_Z MAX_UPLOAD_SIZE) = false ->
  too_big dataUrl.
Proof.
  intros Hsize Hle. exists bytes. split; [exact Hsize|].
  apply Qnot_le_lt. intros H. apply Qle_bool_iff in H. congruence.
Defined.

Lemma handleImageUpload_appends_batch_witness :
  files Demo.two_photos = Some [Demo.shop; Demo.menu]
  /\ Forall (fun f => size f <= MAX_IMAGE_SIZE) [Demo.shop; Demo.menu]
  /\ Forall fits [Demo.encoded Demo.shop; Demo.encoded Demo.menu]
  /\ images
       (store
          (snd (on_image_upload Demo.decode Demo.getContext2d Demo.toDataURL
                  Demo.two_photos)))
     = ["data:,a"; Demo.encoded Demo.shop; Demo.encoded Demo.menu].
Proof.
  assert (Hsmall : Forall (fun f => size f <= MAX_IMAGE_SIZE)
                     [Demo.shop; Demo.menu]).
  { repeat constructor; vm_compute; discriminate. }
  assert (Hfits : Forall fits [Demo.encoded Demo.shop; Demo.encoded Demo.menu]).
  { repeat constructor;
      (eapply size_fits; [vm_compute; reflexivity | reflexivity]). }
  split; [reflexivity|]. split; [exact Hsmall|]. split; [exact Hfits|].
  apply (handleImageUpload_appends_batch Z Demo.decode Demo.getContext2d
           Demo.toDataURL Demo.two_photos [Demo.shop; Demo.menu]
           [Demo.encoded Demo.shop; Demo.encoded Demo.menu]
           eq_refl Hsmall eq_refl Hfits).
Defined.

Lemma handleImageUpload_rejects_oversized_witness :
  files Demo.with_raw = Some [Demo.shop; Demo.raw]
  /\ Exists (fun f => MAX_IMAGE_SIZE < size f) [Demo.shop; Demo.raw]
  /\ error
       (store
          (snd (on_image_upload Demo.decode Demo.getContext2d Demo.toDataURL
                  Demo.with_raw)))
     = Some (oversized_message (oversized [Demo.shop; Demo.raw])).
Proof.
  assert (Hbig : Exists (fun f => MAX_IMAGE_SIZE < size f)
                   [Demo.shop; Demo.raw]).
  { apply Exists_cons_tl, Exists_cons_hd. reflexivity. }
  split; [reflexivity|]. split; [exact Hbig|].
  apply (handleImageUpload_rejects_oversized Z Demo.decode Demo.getContext2d
           Demo.toDataURL Demo.with_raw [Demo.shop; Demo.raw] eq_refl Hbig).
Defined.

Lemma handleImageUpload_rejects_large_result_witness :
  files Demo.with_huge = Some [Demo.shop; Demo.huge]
  /\ Forall (fun f => size f <= MAX_IMAGE_SIZE) [Demo.shop; Demo.huge]
  /\ Exists too_big [Demo.encoded Demo.shop; Demo.encoded Demo.huge]
  /\ images
       (store
          (snd (on_image_upload Demo.decode Demo.getContext2d Demo.toDataURL
                  Demo.with_huge)))
     = images (store Demo.with_huge).
Proof.
  assert (Hsmall : Forall (fun f => size f <= MAX_IMAGE_SIZE)
                     [Demo.shop; Demo.huge]).
  { repeat constructor; vm_compute; discriminate. }
  assert (Hbig : Exists too_big
                   [Demo.encoded Demo.shop; Demo.encoded Demo.huge]).
  { apply Exists_cons_tl, Exists_cons_hd.
    eapply size_too_big; [vm_compute; reflexivity | reflexivity]. }
  split; [reflexivity|]. split; [exact Hsmall|]. split; [exact Hbig|].
  apply (handleImageUpload_rejects_large_result Z Demo.decode
           Demo.getContext2d Demo.toDataURL Demo.with_huge
           [Demo.shop; Demo.huge]
           [Demo.encoded Demo.shop; Demo.encoded Demo.huge]
           eq_refl Hsmall eq_refl Hbig).
Defined.

Lemma handleImageUpload_resets_processing_witness :
  files Demo.with_broken = Some [Demo.shop; Demo.broken]
  /\ Forall (fun f => size f <= MAX_IMAGE_SIZE) [Demo.shop; Demo.broken]
  /\ Exists
       (fun f =>
          exists v,
            compressImage Demo.decode Demo.getContext2d Demo.toDataURL f
            = JS.Rejected v)
       [Demo.shop; Demo.broken]
  /\ isProcessing
       (store
          (snd (on_image_upload Demo.decode Demo.getContext2d Demo.toDataURL
                  Demo.with_broken)))
     = false
  /\ error
       (store
          (snd (on_image_upload Demo.decode Demo.getContext2d Demo.toDataURL
                  Demo.with_broken)))
     = Some failed_message.
Proof.
  assert (Hsmall : Forall (fun f => size f <= MAX_IMAGE_SIZE)
                     [Demo.shop; Demo.broken]).
  { repeat constructor; vm_compute; discriminate. }
  assert (Hrejected :
            Exists
              (fun f =>
                 exists v,
                   compressImage Demo.decode Demo.getContext2d
                     Demo.toDataURL f
                   = JS.Rejected v)
              [Demo.shop; Demo.broken]).
  { apply Exists_cons_tl, Exists_cons_hd. eexists. reflexivity. }
  pose proof (handleImageUpload_resets_processing Z Demo.decode
                Demo.getContext2d Demo.toDataURL Demo.with_broken
                [Demo.shop; Demo.broken] eq_refl Hsmall) as H.
  cbv zeta in H. destruct H as (_ & Hflag & _ & Hfailure).
  split; [reflexivity|]. split; [exact Hsmall|]. split; [exact Hrejected|].
  split; [exact Hflag|]. exact (proj1 (Hfailure Hrejected)).
Defined.

Lemma handleImageUpload_empty_selection_witness :
  files Demo.nothing_selected = Some []
  /\ error
       (store
          (snd (on_image_upload Demo.decode Demo.getContext2d Demo.toDataURL
                  Demo.nothing_selected)))
     = None
  /\ images
       (store
          (snd (on_image_upload Demo.decode Demo.getContext2d Demo.toDataURL
                  Demo.nothing_selected)))
     = images (store Demo.nothing_selected).
Proof.
  pose proof (proj2 (handleImageUpload_empty_selection Z Demo.decode
                       Demo.getContext2d Demo.toDataURL
                       Demo.nothing_selected) eq_refl) as H.
  cbv zeta in H. destruct H as (Himages & _ & _ & _ & Herror & _).
  split; [reflexivity|]. split; [exact Herror | exact Himages].
Defined.

Lemma handleSubmit_gate_witness :
  ((length (images (store Demo.one_image)) < 3)%nat
   /\ error
        (store
           (snd (on_form_submit Demo.print Demo.accept Demo.typed
                   Demo.one_image)))
      = Some "Please upload at least 3 images")
  /\ ((3 <= length (images (store Demo.three_images)))%nat
      /\ exists formData,
           filter is_SubmitCall
             (performed Demo.three_images
                (snd (on_form_submit Demo.print Demo.accept Demo.typed
                        Demo.three_images)))
           = [SubmitCall formData]
           /\ FormData_get "location" formData
              = Some (JSON_stringify Demo.print
                        (location (store Demo.three_images)))).
Proof.
  assert (Hshort : (length (images (store Demo.one_image)) < 3)%nat).
  { vm_compute. lia. }
  assert (Hfull : (3 <= length (images (store Demo.three_images)))%nat).
  { vm_compute. lia. }
  split.
  - split; [exact Hshort|].
    exact (proj2 (proj1 (handleSubmit_gate Z Demo.print Demo.accept
                           Demo.one_image Demo.typed) Hshort)).
  - split; [exact Hfull|].
    exact (proj2 (handleSubmit_gate Z Demo.print Demo.accept
                    Demo.three_images Demo.typed) Hfull).
Defined.

Lemma handleSubmit_catches_witness :
  (3 <= length (images (store Demo.three_images)))%nat
  /\ Demo.refuse
       (form_entries Demo.print (store Demo.three_images) Demo.typed)
     = JS.Rejected (JS.ErrorObject "Email already registered")
  /\ error
       (store
          (snd (on_form_submit Demo.print Demo.refuse Demo.typed
                  Demo.three_images)))
     = Some "Email already registered".
Proof.
  assert (Hfull : (3 <= length (images (store Demo.three_images)))%nat).
  { vm_compute. lia. }
  split; [exact Hfull|]. split; [reflexivity|].
  apply (handleSubmit_catches Z Demo.print Demo.refuse Demo.three_images
           Demo.typed (JS.ErrorObject "Email already registered")
           Hfull eq_refl).
Defined.

Lemma compressImage_dimensions_bounded_witness :
  0 <= 4000 /\ 0 <= 3000
  /\ let '(w', h') := compressImage_dimensions 4000 3000 in
     (Z.max 4000 3000 <= 1024 -> (w', h') = (4000, 3000))
     /\ (1024 < Z.max 4000 3000 -> 3000 < 4000 ->
         w' = 1024
         /\ h' = JS.Math_round (inject_Z (3000 * 1024) / inject_Z 4000)
         /\ h' = (2 * (3000 * 1024) + 4000) / (2 * 4000))
     /\ (1024 < Z.max 4000 3000 -> 4000 <= 3000 ->
         h' = 1024
         /\ w' = JS.Math_round (inject_Z (4000 * 1024) / inject_Z 3000)
         /\ w' = (2 * (4000 * 1024) + 3000) / (2 * 3000))
     /\ Z.max w' h' <= 1024
     /\ 2 * Z.abs (w' * 3000 - h' * 4000) <= Z.max 4000 3000.
Proof.
  split; [lia|]. split; [lia|].
  apply (compressImage_dimensions_bounded 4000 3000); lia.
Defined.

(** ** Where sentences of the specification fail *)

(** C6 as stated fails: an upload event with an empty file list clears an
    error that was showing. *)
Lemma empty_selection_clears_error :
  files Demo.nothing_selected = Some []
  /\ error (store Demo.nothing_selected)
     = Some "Please upload at least 3 images"
  /\ error
       (store
          (snd (on_image_upload Demo.decode Demo.getContext2d Demo.toDataURL
                  Demo.nothing_selected)))
     <> error (store Demo.nothing_selected).
Proof.
  split; [reflexivity|]. split; [reflexivity|]. vm_compute. discriminate.
Qed.

(** C8 as stated fails: a map click made before the geocoder exists does
    not move the location to the clicked coordinates. *)
Lemma map_click_before_geocoder_keeps_location :
  geocoder (store Demo.before_geocoder) = None
  /\ location
       (store (snd (on_map_click (Some Demo.riverside) Demo.before_geocoder)))
     <> Demo.riverside.
Proof.
  split; [reflexivity|]. vm_compute. discriminate.
Qed.

(** C9 as stated fails: when the external handler throws an [Error] that
    has no message, the error becomes the empty string, not the generic
    text. *)
Lemma empty_message_is_not_replaced :
  (3 <= length (images (store Demo.three_images)))%nat
  /\ Demo.refuse_silently
       (form_entries Demo.print (store Demo.three_images) Demo.typed)
     = JS.Rejected (JS.ErrorObject EmptyString)
  /\ error
       (store
          (snd (on_form_submit Demo.print Demo.refuse_silently Demo.typed
                  Demo.three_images)))
     = Some EmptyString
  /\ error
       (store
          (snd (on_form_submit Demo.print Demo.refuse_silently Demo.typed
                  Demo.three_images)))
     <> Some "An error occurred while registering".
Proof.
  split; [vm_compute; lia|]. split; [reflexivity|].
  split; [reflexivity|]. vm_compute. discriminate.
Qed.

(** * Further properties of the component *)

(** ** The canvas dimensions *)

Lemma dimensions_range (w h : Z) :
  0 <= w -> 0 <= h ->
  let d := compressImage_dimensions w h in
  0 <= fst d <= 1024 /\ 0 <= snd d <= 1024
  /\ fst d <= w /\ snd d <= h
  /\ (h < w -> snd d <= fst d) /\ (w <= h -> fst d <= snd d).
Proof.
  intros Hw Hh. unfold compressImage_dimensions. cbv zeta.
  destruct (Z.gtb_spec w h) as [Hwh | Hwh];
    [destruct (Z.gtb_spec w 1024) as [Hbig | Hbig]
    |destruct (Z.gtb_spec h 1024) as [Hbig | Hbig]]; cbn [fst snd].
  - pose proof (Math_round_bounds (h * 1024) w ltac:(lia)) as Hr.
    cbv zeta in Hr.
    set (r := JS.Math_round (inject_Z (h * 1024) / inject_Z w)) in *.
    repeat split; try lia; nia.
  - lia.
  - pose proof (Math_round_bounds (w * 1024) h ltac:(lia)) as Hr.
    cbv zeta in Hr.
    set (r := JS.Math_round (inject_Z (w * 1024) / inject_Z h)) in *.
    repeat split; try lia; nia.
  - lia.
Qed.

Lemma dimensions_fixed (w h : Z) :
  w <= 1024 -> h <= 1024 -> compressImage_dimensions w h = (w, h).
Proof.
  intros Hw Hh. unfold compressImage_dimensions. cbv zeta.
  destruct (Z.gtb_spec w h); [destruct (Z.gtb_spec w 1024)
                             |destruct (Z.gtb_spec h 1024)];
    (reflexivity || lia).
Qed.

(** X1: computing the canvas dimensions a second time, from the dimensions
    already computed, changes nothing: an image that went through the
    computation once is never shrunk again. *)
Theorem compressImage_dimensions_idempotent (w h : Z) :
  0 <= w -> 0 <= h ->
  compressImage_dimensions (fst (compressImage_dimensions w h))
    (snd (compressImage_dimensions w h))
  = compressImage_dimensions w h.
Proof.
  intros Hw Hh.
  pose proof (dimensions_range w h Hw Hh) as H. cbv zeta in H.
  rewrite dimensions_fixed by lia.
  destruct (compressImage_dimensions w h); reflexivity.
Qed.

(** X2: the computed canvas is never larger than the image on either side,
    has no negative side, and keeps the orientation: a landscape image
    stays at least as wide as tall, and a portrait or square one at least as
    tall as wide. *)
Theorem compressImage_dimensions_shrink_only (w h : Z) :
  0 <= w -> 0 <= h ->
  let '(w', h') := compressImage_dimensions w h in
  0 <= w' <= w /\ 0 <= h' <= h
  /\ (h < w -> h' <= w') /\ (w <= h -> w' <= h').
Proof.
  intros Hw Hh.
  pose proof (dimensions_range w h Hw Hh) as H. cbv zeta in H.
  destruct (compressImage_dimensions w h) as [w' h']. cbn [fst snd] in H.
  repeat split; lia.
Qed.

(** X3: a side of the canvas collapses to zero pixels exactly when the
    image is more than 2048 times longer on its other side; otherwise a
    non-empty image keeps a non-empty canvas. *)
Theorem compressImage_dimensions_zero_side (w h : Z) :
  0 <= w -> 0 <= h ->
  let '(w', h') := compressImage_dimensions w h in
  (0 < h -> (h' = 0 <-> 2048 * h < w))
  /\ (0 < w -> (w' = 0 <-> 2048 * w < h)).
Proof.
  intros Hw Hh. unfold compressImage_dimensions. cbv zeta.
  destruct (Z.gtb_spec w h) as [Hwh | Hwh];
    [destruct (Z.gtb_spec w 1024) as [Hbig | Hbig]
    |destruct (Z.gtb_spec h 1024) as [Hbig | Hbig]].
  - pose proof (Math_round_bounds (h * 1024) w ltac:(lia)) as Hr.
    cbv zeta in Hr.
    set (r := JS.Math_round (inject_Z (h * 1024) / inject_Z w)) in *.
    split; intros Hpos; split; intros H; try lia; nia.
  - split; intros Hpos; split; intros H; lia.
  - pose proof (Math_round_bounds (w * 1024) h ltac:(lia)) as Hr.
    cbv zeta in Hr.
    set (r := JS.Math_round (inject_Z (w * 1024) / inject_Z h)) in *.
    split; intros Hpos; split; intros H; try lia; nia.
  - split; intros Hpos; split; intros H; lia.
Qed.

(** ** The size of a data URL *)

Lemma split_comma_free (s : string) :
  comma_free s = true -> JS.split ","%char s = [s].
Proof.
  induction s as [|c s IH]; simpl; [reflexivity|].
  intros H. apply andb_prop in H. destruct H as [Hc Hs].
  apply negb_true_iff in Hc. rewrite Hc, (IH Hs). reflexivity.
Qed.

Lemma split_after_header (header rest : string) :
  comma_free header = true ->
  JS.split ","%char (header ++ "," ++ rest)%string
  = header :: JS.split ","%char rest.
Proof.
  induction header as [|c header IH]; simpl; [reflexivity|].
  intros H. apply andb_prop in H. destruct H as [Hc Hs].
  apply negb_true_iff in Hc. rewrite Hc.
  change (header ++ String "," rest)%string
    with (header ++ "," ++ rest)%string.
  rewrite (IH Hs). reflexivity.
Qed.

(** X4: for a data URL made of a comma-free header, a comma and a
    comma-free payload, the size the check computes is three quarters of the
    payload's length; when the payload itself contains a comma, only the
    part before that comma is counted. *)
Theorem sizeInBytes_counts_first_piece (header piece : string) :
  comma_free header = true ->
  comma_free piece = true ->
  let counted :=
    Some (inject_Z (Z.of_nat (String.length piece)) * (75 # 100))%Q in
  sizeInBytes (header ++ "," ++ piece)%string = counted
  /\ forall rest,
       sizeInBytes (header ++ "," ++ piece ++ "," ++ rest)%string = counted.
Proof.
  intros Hheader Hpiece counted. subst counted. unfold sizeInBytes. split.
  - rewrite (split_after_header header piece Hheader).
    rewrite (split_comma_free piece Hpiece). reflexivity.
  - intros rest.
    rewrite (split_after_header header _ Hheader).
    rewrite (split_after_header piece rest Hpiece). reflexivity.
Qed.

(** X5: the upload ceiling in characters: a data URL whose payload (the
    piece between its first and second comma) has 1398101 characters or
    fewer is within the ceiling, one with 1398102 or more is beyond it, and
    a data URL without a comma has no size at all. *)
Theorem upload_ceiling_in_characters (dataUrl : string) :
  match nth_error (JS.split ","%char dataUrl) 1 with
  | Some payload =>
      (fits dataUrl <-> Z.of_nat (String.length payload) <= 1398101)
      /\ (too_big dataUrl <-> 1398102 <= Z.of_nat (String.length payload))
  | None => sizeInBytes dataUrl = None
  end.
Proof.
  unfold fits, too_big, sizeInBytes.
  destruct (nth_error (JS.split ","%char dataUrl) 1) as [payload|];
    [|reflexivity].
  cbv zeta.
  assert (Hle : forall n : Z,
             (inject_Z n * (75 # 100) <= inject_Z MAX_UPLOAD_SIZE)%Q
             <-> n <= 1398101).
  { intros n. unfold Qle, Qmult, inject_Z, MAX_UPLOAD_SIZE.
    cbn [Qnum Qden]. lia. }
  assert (Hlt : forall n : Z,
             (inject_Z MAX_UPLOAD_SIZE < inject_Z n * (75 # 100))%Q
             <-> 1398102 <= n).
  { intros n. unfold Qlt, Qmult, inject_Z, MAX_UPLOAD_SIZE.
    cbn [Qnum Qden]. lia. }
  split; split.
  - intros (bytes & [= <-] & H). apply Hle in H. lia.
  - intros H. eexists. split; [reflexivity|]. apply Hle. lia.
  - intros (bytes & [= <-] & H). apply Hlt in H. lia.
  - intros H. eexists. split; [reflexivity|]. apply Hlt. lia.
Qed.

(** ** The handlers *)

Section Further.

Variable number : Type.
Variable JSON_stringify_number : number -> string.
Variable decode : File -> option (Z * Z).
Variable getContext2d : Z -> Z -> bool.
Variable toDataURL : File -> Z -> Z -> string.
Variable onSubmit : FormData -> JS.settled unit.

Local Abbreviation compress := (compressImage decode getContext2d toDataURL).
Local Abbreviation upload := (on_image_upload decode getContext2d toDataURL).
Local Abbreviation submit := (on_form_submit JSON_stringify_number onSubmit).
Local Abbreviation World := (World number).
Local Abbreviation finish := (batch_end decode getContext2d toDataURL).
Local Abbreviation entries := (form_entries JSON_stringify_number).

(** *** Helper lemmas *)

Lemma exceeds_false_fits (dataUrl : string) (w w' : World) :
  exceeds_upload_size dataUrl w = (Normal false, w') -> fits dataUrl.
Proof.
  unfold exceeds_upload_size, fits.
  destruct (sizeInBytes dataUrl) as [bytes|]; [|discriminate].
  unfold ret. intros [= H _]. exists bytes. split; [reflexivity|].
  apply Qle_bool_iff. apply negb_false_iff. exact H.
Qed.

Lemma Array_some_false_fits (urls : list string) (w : World) :
  Array_some exceeds_upload_size urls w = (Normal false, w) ->
  Forall fits urls.
Proof.
  induction urls as [|url urls IH]; simpl; [constructor|].
  unfold bind.
  destruct (exceeds_cases number url w) as [E | [E | [v E]]]; rewrite E;
    [discriminate | | discriminate].
  intros H. constructor; [|exact (IH H)].
  exact (exceeds_false_fits url w w E).
Qed.

Lemma batch_end_outcomes (w : World) (fs : list File) :
  (exists v,
      finish w fs = ended_failed v (started w fs)
      /\ (Exists (fun f => exists v, compress f = JS.Rejected v) fs
          \/ exists urls,
               map compress fs = map JS.Fulfilled urls
               /\ ~ Forall (fun url => sizeInBytes url <> None) urls))
  \/ (finish w fs = ended_too_large (started w fs)
      /\ exists urls,
           map compress fs = map JS.Fulfilled urls /\ ~ Forall fits urls)
  \/ (exists urls,
        map compress fs = map JS.Fulfilled urls
        /\ Forall fits urls
        /\ finish w fs
           = ended_appended (images (store w) ++ urls) (started w fs)).
Proof.
  unfold batch_end.
  destruct (Promise_all (map compress fs)) as [urls | v] eqn:Hall.
  - apply Promise_all_inv in Hall.
    destruct (Array_some_cases number urls (started w fs))
      as [E | [E | [v E]]]; rewrite E; cbn [fst].
    + right; left. split; [reflexivity|]. exists urls. split; [exact Hall|].
      intros Hfits.
      rewrite (Array_some_fits number urls _ Hfits) in E. discriminate.
    + right; right. exists urls. split; [exact Hall|]. split; [|reflexivity].
      exact (Array_some_false_fits urls _ E).
    + left. exists v. split; [reflexivity|]. right. exists urls.
      split; [exact Hall|]. intros Hsized.
      clear Hall. induction urls as [|url urls IH]; [discriminate|].
      inversion Hsized as [|? ? Hurl Hrest]; subst.
      simpl in E. unfold bind in E.
      destruct (exceeds_cases number url (started w fs))
        as [E1 | [E1 | [v1 E1]]]; rewrite E1 in E.
      * discriminate.
      * exact (IH E Hrest).
      * unfold exceeds_upload_size in E1.
        destruct (sizeInBytes url); [discriminate | congruence].
  - left. exists v. split; [reflexivity|]. left.
    clear w. induction fs as [|f fs IH]; [discriminate|].
    simpl in Hall. destruct (compress f) as [url|v0] eqn:Hf.
    + apply Exists_cons_tl.
      destruct (Promise_all (map compress fs)); [discriminate|].
      apply IH. exact Hall.
    + apply Exists_cons_hd. eauto.
Qed.

Lemma getAll_images (st : State number) (typed : Typed) :
  FormData_getAll "images" (entries st typed) = images st.
Proof.
  unfold FormData_getAll, form_entries.
  cbn [app filter fst String.eqb Ascii.eqb Bool.eqb].
  induction (images st) as [|url urls IH]; [reflexivity|].
  cbn [map filter fst snd String.eqb Ascii.eqb Bool.eqb].
  f_equal. exact IH.
Qed.

Lemma upload_split (w : World) :
  files w = None
  \/ (exists fs,
        files w = Some fs
        /\ Forall (fun f => size f <= MAX_IMAGE_SIZE) fs)
  \/ (exists fs,
        files w = Some fs
        /\ Exists (fun f => MAX_IMAGE_SIZE < size f) fs).
Proof.
  destruct (files w) as [fs|]; [|left; reflexivity].
  destruct (small_or_oversized fs); [right; left | right; right]; eauto.
Qed.

(** *** Address edits *)

(** X6: an edit of the address field always stores the typed text, whatever
    the geocoder does.  With a geocoder and a non-empty text, the text is
    stored before the lookup is made, and the location moves to the first
    result's position when the lookup succeeds with one, and stays put when
    it fails or finds none.  With no geocoder, or an empty text, no lookup
    is made at all.  The error is never touched. *)
Theorem handleAddressChange_sets_address
  (w : World) (e_target_value : string) :
  let w' := snd (on_address_change e_target_value w) in
  address (store w') = e_target_value
  /\ error (store w') = error (store w)
  /\ match geocoder (store w), e_target_value with
     | Some the_geocoder, String _ _ =>
         (exists later,
             performed w w'
             = SetAddress e_target_value
                 :: GeocodeCall (ByAddress e_target_value) :: later)
         /\ location (store w')
            = match geocode the_geocoder (ByAddress e_target_value) with
              | JS.Fulfilled response =>
                  match first_geometry_location response with
                  | Some found => found
                  | None => location (store w)
                  end
              | JS.Rejected _ => location (store w)
              end
     | _, _ =>
         performed w w' = [SetAddress e_target_value]
         /\ location (store w') = location (store w)
     end.
Proof.
  intros w'. subst w'.
  unfold on_address_change, handleAddressChange, async_function.
  cbv [bind setAddress update]. cbn [files store log].
  destruct (geocoder (store w)) as [the_geocoder|].
  - destruct e_target_value as [|c rest]; cbn [is_empty].
    + cbv [return_]. cbn [snd store log address error location].
      repeat split. apply performed_app. reflexivity.
    + cbv [try_catch call_geocode bind emit ret]. cbn [files store log].
      destruct (geocode the_geocoder (ByAddress (String c rest)))
        as [response | v];
        cbv [await ret throw setLocation update console_error emit];
        [destruct (first_geometry_location response) as [[flat flng]|]|];
        cbn [lat lng files store log fst snd address error location];
        (repeat split;
         eexists; apply performed_app; cbn [log];
         rewrite <- ?app_assoc; reflexivity).
  - cbv [return_]. cbn [snd store log address error location].
    destruct e_target_value; repeat split; apply performed_app; reflexivity.
Qed.

(** *** No handler lets an exception escape *)

(** X7: the promise returned by each of the four handlers is always
    fulfilled: whatever the geocoder, the image pipeline or the submission
    handler do, no rejection escapes to the caller. *)
Theorem handlers_never_reject (w : World) :
  fst (upload w) = JS.Fulfilled tt
  /\ (forall typed, fst (submit typed w) = JS.Fulfilled tt)
  /\ (forall e_latLng, fst (on_map_click e_latLng w) = JS.Fulfilled tt)
  /\ (forall e_target_value,
        fst (on_address_change e_target_value w) = JS.Fulfilled tt).
Proof.
  split; [|split; [|split]].
  - destruct (upload_split w) as [H | [(fs & H & Hs) | (fs & H & Hb)]].
    + rewrite (upload_null number decode getContext2d toDataURL w H).
      reflexivity.
    + rewrite (upload_run number decode getContext2d toDataURL w fs H Hs).
      reflexivity.
    + rewrite (upload_oversized number decode getContext2d toDataURL
                 w fs H Hb).
      reflexivity.
  - intros typed.
    destruct (Nat.lt_ge_cases (length (images (store w))) 3) as [H | H].
    + rewrite (submit_short number JSON_stringify_number onSubmit w typed H).
      reflexivity.
    + rewrite (submit_full number JSON_stringify_number onSubmit w typed H).
      reflexivity.
  - intros e_latLng.
    unfold on_map_click, handleMapClick, async_function.
    destruct e_latLng as [latLng|]; [|reflexivity].
    destruct (geocoder (store w)) as [the_geocoder|]; [|reflexivity].
    cbv [bind setLocation update try_catch call_geocode emit ret].
    cbn [files store log].
    destruct (geocode the_geocoder _) as [[[|first others]] | v];
      reflexivity.
  - intros e_target_value.
    unfold on_address_change, handleAddressChange, async_function.
    cbv [bind setAddress update]. cbn [files store log].
    destruct (geocoder (store w)) as [the_geocoder|]; [|reflexivity].
    destruct (is_empty e_target_value); [reflexivity|].
    cbv [try_catch call_geocode bind emit ret]. cbn [files store log].
    destruct (geocode the_geocoder _) as [response | v];
      cbv [await ret throw setLocation update console_error emit];
      [destruct (first_geometry_location response)|]; reflexivity.
Qed.

(** *** Submission *)

(** X8: a submission changes no cell but the error: images, location,
    address, processing flag, geocoder and file selection are as before.
    When the external handler succeeds the error ends up cleared, and the
    run did exactly two things: clear the error and call the handler. *)
Theorem handleSubmit_touches_error_only (w : World) (typed : Typed) :
  let w' := snd (submit typed w) in
  images (store w') = images (store w)
  /\ location (store w') = location (store w)
  /\ address (store w') = address (store w)
  /\ isProcessing (store w') = isProcessing (store w)
  /\ geocoder (store w') = geocoder (store w)
  /\ files w' = files w
  /\ ((3 <= length (images (store w)))%nat ->
      onSubmit (entries (store w) typed) = JS.Fulfilled tt ->
      error (store w') = None
      /\ performed w w'
         = [SetError None; SubmitCall (entries (store w) typed)]).
Proof.
  intros w'. subst w'.
  destruct (Nat.lt_ge_cases (length (images (store w))) 3) as [H | H].
  - rewrite (submit_short number JSON_stringify_number onSubmit w typed H).
    cbn [snd]. repeat split; exfalso; lia.
  - rewrite (submit_full number JSON_stringify_number onSubmit w typed H).
    cbv zeta. cbn [snd].
    destruct (onSubmit (entries (store w) typed)) as [[] | v];
      repeat split; try discriminate.
    apply performed_app. reflexivity.
Qed.

(** X9: the form data the external handler receives hold the image list,
    entry by entry and in order, under the name [images] (at least three of
    them), the current address, the two typed fields, and nothing else
    beside the location. *)
Theorem handleSubmit_sends_the_form (w : World) (typed : Typed) :
  (3 <= length (images (store w)))%nat ->
  let w' := snd (submit typed w) in
  exists formData,
    In (SubmitCall formData) (performed w w')
    /\ FormData_getAll "images" formData = images (store w)
    /\ (3 <= length (FormData_getAll "images" formData))%nat
    /\ FormData_get "address" formData = Some (address (store w))
    /\ FormData_get "businessName" formData = Some (businessName typed)
    /\ FormData_get "description" formData = Some (description typed)
    /\ length formData = (4 + length (images (store w)))%nat.
Proof.
  intros H w'. subst w'.
  rewrite (submit_full number JSON_stringify_number onSubmit w typed H).
  cbv zeta. cbn [snd].
  exists (entries (store w) typed).
  split; [|split; [|split; [|split; [|split; [|split]]]]].
  - destruct (onSubmit (entries (store w) typed));
      erewrite performed_app by reflexivity; cbn; auto.
  - apply getAll_images.
  - rewrite getAll_images. exact H.
  - reflexivity.
  - reflexivity.
  - reflexivity.
  - unfold form_entries. rewrite length_app, length_map. reflexivity.
Qed.

(** *** Uploads *)

(** X10: a batch that passes both size checks leaves the form ready for
    the next step: the error is cleared, the processing flag is false, the
    file input keeps its selection, and the run consists of: raise the flag,
    clear the error, launch one compression per file in selection order,
    store the images, lower the flag. *)
Theorem handleImageUpload_success_trace
  (w : World) (fs : list File) (urls : list string) :
  files w = Some fs ->
  Forall (fun f => size f <= MAX_IMAGE_SIZE) fs ->
  map compress fs = map JS.Fulfilled urls ->
  Forall fits urls ->
  let w' := snd (upload w) in
  error (store w') = None
  /\ isProcessing (store w') = false
  /\ files w' = Some fs
  /\ geocoder (store w') = geocoder (store w)
  /\ performed w w'
     = [SetIsProcessing true; SetError None]
         ++ map CompressCall fs
         ++ [SetImages (images (store w) ++ urls); SetIsProcessing false].
Proof.
  intros Hfiles Hsmall Hall Hfits w'. subst w'.
  rewrite (upload_run number decode getContext2d toDataURL w fs Hfiles Hsmall).
  cbn [snd].
  rewrite (batch_end_fits number decode getContext2d toDataURL
             w fs urls Hall Hfits).
  repeat split.
  - exact Hfiles.
  - erewrite (performed_started number w fs) by reflexivity. reflexivity.
Qed.

Lemma only_calls_in_calls (fs : list File) :
  filter is_CompressCall (map (@CompressCall number) fs)
  = map CompressCall fs.
Proof.
  induction fs as [|f fs IH]; simpl; [reflexivity|]. rewrite IH. reflexivity.
Qed.

(** X11: every file of a batch that passes the raw-size check is handed to
    [compressImage], once and in selection order, also when one of the
    compressions fails or a result is too large: the batch is not cut short
    at the first failure. *)
Theorem handleImageUpload_compresses_every_file
  (w : World) (fs : list File) :
  files w = Some fs ->
  Forall (fun f => size f <= MAX_IMAGE_SIZE) fs ->
  filter is_CompressCall (performed w (snd (upload w)))
  = map CompressCall fs.
Proof.
  intros Hfiles Hsmall.
  rewrite (upload_run number decode getContext2d toDataURL w fs Hfiles Hsmall).
  cbn [snd].
  destruct (batch_end_cases number decode getContext2d toDataURL w fs)
    as [[v E] | [E | (urls & _ & E)]];
    rewrite E;
    erewrite (performed_started number w fs) by reflexivity;
    cbn [app filter is_CompressCall];
    rewrite filter_app, only_calls_in_calls;
    cbn [filter is_CompressCall]; rewrite app_nil_r; reflexivity.
Qed.

(** X12: when every compression succeeds but some result has no comma in
    it, and the results before it are all within the ceiling, reading the
    payload's length throws; the batch then ends like a failed compression:
    generic error, cleared input, image list unchanged, processing flag
    false. *)
Theorem handleImageUpload_fails_on_comma_free_result
  (w : World) (fs : list File) (good rest : list string) (bad : string) :
  files w = Some fs ->
  Forall (fun f => size f <= MAX_IMAGE_SIZE) fs ->
  map compress fs = map JS.Fulfilled (good ++ bad :: rest) ->
  Forall fits good ->
  comma_free bad = true ->
  let w' := snd (upload w) in
  error (store w') = Some failed_message
  /\ files w' = Some []
  /\ images (store w') = images (store w)
  /\ isProcessing (store w') = false.
Proof.
  intros Hfiles Hsmall Hall Hgood Hbad w'. subst w'.
  rewrite (upload_run number decode getContext2d toDataURL w fs Hfiles Hsmall).
  cbn [snd]. unfold batch_end.
  rewrite Hall, Promise_all_fulfilled.
  assert (Hthrow :
            exists v,
              Array_some exceeds_upload_size (good ++ bad :: rest)
                (started w fs)
              = (Throw v, started w fs)).
  { clear Hall.
    induction Hgood as [|url good Hurl _ IH]; cbn [app Array_some].
    - unfold bind, exceeds_upload_size, sizeInBytes.
      rewrite (split_comma_free bad Hbad). cbn [nth_error].
      eexists. reflexivity.
    - unfold bind at 1.
      rewrite (exceeds_fits number url (started w fs) Hurl). exact IH. }
  destruct Hthrow as [v Hthrow]. rewrite Hthrow. cbn [fst].
  repeat split.
Qed.

(** *** What each event keeps *)

Ltac quiet_unchanged Hg :=
  cbv [return_];
  cbn [snd store log images isProcessing geocoder with_address];
  rewrite ?Hg; repeat split;
  exists []; rewrite app_nil_r; split; [reflexivity | constructor].

Ltac quiet_logged Hg :=
  cbv [return_ await ret throw setAddress setLocation update console_error
       emit];
  cbn [results files store log fst snd images isProcessing geocoder
       with_location with_address];
  rewrite ?Hg; repeat split; eexists;
  (split; [rewrite <- ?app_assoc; reflexivity | repeat constructor]).

Lemma map_click_quiet (w : World) (e_latLng : option (LatLng number)) :
  quiet w (snd (on_map_click e_latLng w)).
Proof.
  unfold quiet, on_map_click, handleMapClick, async_function.
  destruct (geocoder (store w)) as [the_geocoder|] eqn:Hg;
    destruct e_latLng as [latLng|];
    try solve [quiet_unchanged Hg].
  cbv [bind setLocation update try_catch call_geocode emit ret].
  cbn [files store log].
  destruct (geocode the_geocoder _) as [[[|first others]] | v];
    quiet_logged Hg.
Qed.

Lemma address_change_quiet (w : World) (e_target_value : string) :
  quiet w (snd (on_address_change e_target_value w)).
Proof.
  unfold quiet, on_address_change, handleAddressChange, async_function.
  cbv [bind setAddress update]. cbn [files store log].
  destruct (geocoder (store w)) as [the_geocoder|] eqn:Hg;
    [|quiet_logged Hg].
  destruct (is_empty e_target_value); [quiet_logged Hg|].
  cbv [try_catch call_geocode bind emit ret]. cbn [files store log].
  destruct (geocode the_geocoder _) as [response | v];
    cbv [await ret throw];
    [destruct (first_geometry_location response)|];
    quiet_logged Hg.
Qed.

Lemma calls_well_submitted (fs : list File) :
  Forall well_submitted (map (@CompressCall number) fs).
Proof. induction fs; simpl; constructor; [exact I | assumption]. Qed.

(** One upload event: the image list grows by results that are all within
    the ceiling (possibly by none), the processing flag ends false unless
    the handler returned before raising it, the geocoder stays, and no
    submission is logged. *)
Lemma upload_grows (w : World) :
  let w' := snd (upload w) in
  (exists added,
      images (store w') = images (store w) ++ added /\ Forall fits added)
  /\ (isProcessing (store w') = false
      \/ isProcessing (store w') = isProcessing (store w))
  /\ geocoder (store w') = geocoder (store w)
  /\ exists trace,
       log w' = log w ++ trace /\ Forall well_submitted trace.
Proof.
  cbv zeta.
  destruct (upload_split w) as [H | [(fs & H & Hs) | (fs & H & Hb)]].
  - rewrite (upload_null number decode getContext2d toDataURL w H).
    cbn [snd]. split; [|split; [|split]].
    + exists []. rewrite app_nil_r. split; [reflexivity | constructor].
    + right. reflexivity.
    + reflexivity.
    + exists []. rewrite app_nil_r. split; [reflexivity | constructor].
  - rewrite (upload_run number decode getContext2d toDataURL w fs H Hs).
    cbn [snd].
    destruct (batch_end_outcomes w fs)
      as [(v & E & _) | [(E & _) | (urls & _ & Hfits & E)]];
      rewrite E; (split; [|split; [|split]]);
      try (left; reflexivity); try reflexivity;
      try (exists []; rewrite app_nil_r;
           split; [reflexivity | constructor]);
      try (exists urls; split; [reflexivity | exact Hfits]);
      (eexists; split;
       [unfold ended_failed, ended_too_large, ended_appended, started;
        cbn [log]; rewrite <- !app_assoc; reflexivity
       | cbn [app]; do 2 (constructor; [exact I|]);
         apply Forall_app; split;
         [apply calls_well_submitted | repeat constructor]]).
  - rewrite (upload_oversized number decode getContext2d toDataURL w fs H Hb).
    cbn [snd]. split; [|split; [|split]].
    + exists []. rewrite app_nil_r. split; [reflexivity | constructor].
    + right. reflexivity.
    + reflexivity.
    + eexists. split; [reflexivity | repeat constructor].
Qed.

Lemma submit_keeps (w : World) (typed : Typed) :
  Forall fits (images (store w)) ->
  let w' := snd (submit typed w) in
  images (store w') = images (store w)
  /\ isProcessing (store w') = isProcessing (store w)
  /\ geocoder (store w') = geocoder (store w)
  /\ exists trace,
       log w' = log w ++ trace /\ Forall well_submitted trace.
Proof.
  intros Hfits. cbv zeta.
  destruct (Nat.lt_ge_cases (length (images (store w))) 3) as [H | H].
  - rewrite (submit_short number JSON_stringify_number onSubmit w typed H).
    cbn [snd]. repeat split.
    eexists. split; [reflexivity | repeat constructor].
  - rewrite (submit_full number JSON_stringify_number onSubmit w typed H).
    cbv zeta. cbn [snd].
    assert (Hsub : well_submitted
                     (@SubmitCall number (entries (store w) typed))).
    { cbn [well_submitted]. rewrite getAll_images. split; assumption. }
    destruct (onSubmit (entries (store w) typed)) as [[] | v];
      repeat split;
      (eexists; split;
       [reflexivity
       | constructor; [exact I|]; constructor; [exact Hsub|];
         repeat constructor]).
Qed.

Lemma react_settled (ev : Event number) (w : World) :
  settled_form w ->
  settled_form
    (react JSON_stringify_number decode getContext2d toDataURL onSubmit ev w).
Proof.
  intros (Hflag & Hfits & Hlog). unfold settled_form.
  destruct ev as [g | e_latLng | value | selection | typed]; cbn [react].
  - cbn. auto.
  - destruct (map_click_quiet w e_latLng)
      as (Hi & Hp & _ & trace & Ht & Hw).
    rewrite Hi, Hp, Ht. repeat split; try assumption.
    apply Forall_app. split; assumption.
  - destruct (address_change_quiet w value)
      as (Hi & Hp & _ & trace & Ht & Hw).
    rewrite Hi, Hp, Ht. repeat split; try assumption.
    apply Forall_app. split; assumption.
  - pose proof (upload_grows (choose selection w)) as H. cbv zeta in H.
    cbn [choose store log] in H.
    destruct H as ((added & Hi & Ha) & Hp & _ & trace & Ht & Hw).
    rewrite Hi, Ht. split; [|split].
    + destruct Hp as [Hp | Hp]; rewrite Hp; [reflexivity | exact Hflag].
    + apply Forall_app. split; assumption.
    + apply Forall_app. split; assumption.
  - destruct (submit_keeps w typed Hfits)
      as (Hi & Hp & _ & trace & Ht & Hw).
    rewrite Hi, Hp, Ht. repeat split; try assumption.
    apply Forall_app. split; assumption.
Qed.

Lemma session_settled (events : list (Event number)) (w : World) :
  settled_form w ->
  settled_form
    (session JSON_stringify_number decode getContext2d toDataURL onSubmit
       events w).
Proof.
  revert w. induction events as [|ev events IH]; intros w Hw; [exact Hw|].
  cbn [session fold_left]. apply IH. apply react_settled. exact Hw.
Qed.

Lemma first_render_settled (CHIANG_MAI : LatLng number) :
  settled_form (first_render CHIANG_MAI).
Proof. repeat split; constructor. Qed.

Lemma react_appends (ev : Event number) (w : World) :
  exists added,
    images
      (store
         (react JSON_stringify_number decode getContext2d toDataURL onSubmit
            ev w))
    = images (store w) ++ added.
Proof.
  destruct ev as [g | e_latLng | value | selection | typed]; cbn [react].
  - exists []. rewrite app_nil_r. reflexivity.
  - destruct (map_click_quiet w e_latLng) as (Hi & _).
    exists []. rewrite app_nil_r. exact Hi.
  - destruct (address_change_quiet w value) as (Hi & _).
    exists []. rewrite app_nil_r. exact Hi.
  - pose proof (upload_grows (choose selection w)) as H. cbv zeta in H.
    destruct H as ((added & Hi & _) & _). exists added. exact Hi.
  - exists []. rewrite app_nil_r.
    destruct (Nat.lt_ge_cases (length (images (store w))) 3) as [H | H].
    + rewrite (submit_short number JSON_stringify_number onSubmit w typed H).
      reflexivity.
    + rewrite (submit_full number JSON_stringify_number onSubmit w typed H).
      cbv zeta. cbn [snd].
      destruct (onSubmit (entries (store w) typed)); reflexivity.
Qed.

Lemma react_keeps_geocoder (ev : Event number) (w : World) :
  geocoder (store w) <> None ->
  geocoder
    (store
       (react JSON_stringify_number decode getContext2d toDataURL onSubmit
          ev w))
  <> None.
Proof.
  intros Hg.
  destruct ev as [g | e_latLng | value | selection | typed]; cbn [react].
  - cbn. discriminate.
  - destruct (map_click_quiet w e_latLng) as (_ & _ & Hsame & _).
    rewrite Hsame. exact Hg.
  - destruct (address_change_quiet w value) as (_ & _ & Hsame & _).
    rewrite Hsame. exact Hg.
  - pose proof (upload_grows (choose selection w)) as H. cbv zeta in H.
    destruct H as (_ & _ & Hsame & _). rewrite Hsame. exact Hg.
  - destruct (Nat.lt_ge_cases (length (images (store w))) 3) as [H | H].
    + rewrite (submit_short number JSON_stringify_number onSubmit w typed H).
      exact Hg.
    + rewrite (submit_full number JSON_stringify_number onSubmit w typed H).
      cbv zeta. cbn [snd].
      destruct (onSubmit (entries (store w) typed)); exact Hg.
Qed.

Lemma session_keeps_geocoder (events : list (Event number)) (w : World) :
  geocoder (store w) <> None ->
  geocoder
    (store
       (session JSON_stringify_number decode getContext2d toDataURL onSubmit
          events w))
  <> None.
Proof.
  revert w. induction events as [|ev events IH]; intros w Hg; [exact Hg|].
  cbn [session fold_left]. apply IH. apply react_keeps_geocoder. exact Hg.
Qed.

Lemma map_click_moves (w : World) (latLng : LatLng number) :
  geocoder (store w) <> None ->
  location (store (snd (on_map_click (Some latLng) w))) = latLng.
Proof.
  intros Hg. unfold on_map_click, handleMapClick, async_function.
  destruct (geocoder (store w)) as [the_geocoder|]; [|congruence].
  destruct latLng as [clicked_lat clicked_lng].
  cbv [bind setLocation update try_catch call_geocode emit ret].
  cbn [lat lng files store log].
  destruct (geocode the_geocoder _) as [[[|first others]] | v];
    reflexivity.
Qed.

(** *** Sessions *)

(** X13: two batches uploaded one after the other, each passing both size
    checks, end up in the image list in upload order, the second after the
    first; selecting the same files again therefore stores their encodings
    a second time. *)
Theorem uploads_accumulate
  (w : World) (fs1 fs2 : list File) (urls1 urls2 : list string) :
  Forall (fun f => size f <= MAX_IMAGE_SIZE) fs1 ->
  Forall (fun f => size f <= MAX_IMAGE_SIZE) fs2 ->
  map compress fs1 = map JS.Fulfilled urls1 ->
  map compress fs2 = map JS.Fulfilled urls2 ->
  Forall fits urls1 ->
  Forall fits urls2 ->
  images
    (store
       (session JSON_stringify_number decode getContext2d toDataURL onSubmit
          [FilesChange (Some fs1); FilesChange (Some fs2)] w))
  = images (store w) ++ urls1 ++ urls2.
Proof.
  intros Hs1 Hs2 Hall1 Hall2 Hfits1 Hfits2.
  cbn [session fold_left react].
  rewrite (upload_run number decode getContext2d toDataURL
             (choose (Some fs1) w) fs1 eq_refl Hs1).
  cbn [snd].
  rewrite (batch_end_fits number decode getContext2d toDataURL
             _ fs1 urls1 Hall1 Hfits1).
  match goal with
  | |- context [choose (Some fs2) ?W] =>
      rewrite (upload_run number decode getContext2d toDataURL
                 (choose (Some fs2) W) fs2 eq_refl Hs2);
      cbn [snd];
      rewrite (batch_end_fits number decode getContext2d toDataURL
                 (choose (Some fs2) W) fs2 urls2 Hall2 Hfits2)
  end.
  cbn. rewrite <- app_assoc. reflexivity.
Qed.

(** X14: after any sequence of events from the first render, whatever the
    geocoder, the image pipeline and the submission handler do, the
    processing flag is false and every entry of the image list is within the
    upload ceiling. *)
Theorem session_leaves_form_settled
  (CHIANG_MAI : LatLng number) (events : list (Event number)) :
  let w :=
    session JSON_stringify_number decode getContext2d toDataURL onSubmit
      events (first_render CHIANG_MAI) in
  isProcessing (store w) = false /\ Forall fits (images (store w)).
Proof.
  cbv zeta.
  destruct (session_settled events _ (first_render_settled CHIANG_MAI))
    as (Hflag & Hfits & _).
  split; assumption.
Qed.

(** X15: every call of the external submission handler made during a
    session that starts at the first render carries at least three images,
    each within the upload ceiling. *)
Theorem submitted_forms_are_complete
  (CHIANG_MAI : LatLng number) (events : list (Event number))
  (formData : FormData) :
  In (SubmitCall formData)
    (log
       (session JSON_stringify_number decode getContext2d toDataURL onSubmit
          events (first_render CHIANG_MAI))) ->
  (3 <= length (FormData_getAll "images" formData))%nat
  /\ Forall fits (FormData_getAll "images" formData).
Proof.
  intros Hin.
  destruct (session_settled events _ (first_render_settled CHIANG_MAI))
    as (_ & _ & Hlog).
  rewrite Forall_forall in Hlog. exact (Hlog _ Hin).
Qed.

(** X16: no event removes or reorders an image: after any sequence of
    events, the image list is the earlier list followed by what was
    added. *)
Theorem session_only_appends_images
  (events : list (Event number)) (w : World) :
  exists added,
    images
      (store
         (session JSON_stringify_number decode getContext2d toDataURL
            onSubmit events w))
    = images (store w) ++ added.
Proof.
  revert w. induction events as [|ev events IH]; intros w.
  - exists []. rewrite app_nil_r. reflexivity.
  - cbn [session fold_left].
    destruct (IH (react JSON_stringify_number decode getContext2d toDataURL
                    onSubmit ev w)) as [later Hlater].
    destruct (react_appends ev w) as [first Hfirst].
    exists (first ++ later).
    unfold session in Hlater. rewrite Hlater, Hfirst.
    rewrite app_assoc. reflexivity.
Qed.

(** X17: once the maps script has loaded, no event takes the geocoder
    away: after any further events, a click that carries coordinates moves
    the location to them. *)
Theorem clicks_work_once_maps_loaded
  (new_Geocoder : Geocoder number) (events : list (Event number))
  (w : World) (latLng : LatLng number) :
  let loaded :=
    session JSON_stringify_number decode getContext2d toDataURL onSubmit
      (MapsLoaded new_Geocoder :: events) w in
  location
    (store
       (react JSON_stringify_number decode getContext2d toDataURL onSubmit
          (MapClick (Some latLng)) loaded))
  = latLng.
Proof.
  cbv zeta. cbn [react]. apply map_click_moves.
  cbn [session fold_left]. apply session_keeps_geocoder.
  cbn. discriminate.
Qed.

(** *** The error banner *)

(** X18: after a submission that the external handler rejected, the banner
    shows the rejection's text, except that nothing at all is shown when
    the thrown [Error] has an empty message: that failure is invisible. *)
Theorem failed_submission_banner
  (w : World) (typed : Typed) (v : JS.value) :
  (3 <= length (images (store w)))%nat ->
  onSubmit (entries (store w) typed) = JS.Rejected v ->
  let w' := snd (submit typed w) in
  error_banner (store w')
  = (if is_empty (shown v) then None else Some (shown v))
  /\ (v = JS.ErrorObject EmptyString -> error_banner (store w') = None).
Proof.
  intros Hfull Hrejected w'. subst w'.
  rewrite (submit_full number JSON_stringify_number onSubmit w typed Hfull).
  cbv zeta. rewrite Hrejected. cbn [snd].
  unfold error_banner. cbn [store error with_error].
  split.
  - destruct (shown v); reflexivity.
  - intros ->. reflexivity.
Qed.

(** *** [compressImage] as a whole *)

(** X19: whenever [compressImage] produces a data URL for an image, the
    data URL is that of a canvas on which a 2d context was available, no
    larger than 1024 pixels on either side and no larger than the image. *)
Theorem compressImage_draws_bounded_canvas
  (file : File) (w h : Z) (dataUrl : string) :
  decode file = Some (w, h) ->
  0 <= w -> 0 <= h ->
  compress file = JS.Fulfilled dataUrl ->
  exists w' h',
    dataUrl = toDataURL file w' h'
    /\ getContext2d w' h' = true
    /\ 0 <= w' <= 1024 /\ 0 <= h' <= 1024
    /\ w' <= w /\ h' <= h.
Proof.
  intros Hdecode Hw Hh. unfold compressImage. rewrite Hdecode.
  pose proof (dimensions_range w h Hw Hh) as H. cbv zeta in H.
  destruct (compressImage_dimensions w h) as [w' h']. cbn [fst snd] in H.
  destruct (getContext2d w' h') eqn:Hctx; cbn [negb]; [|discriminate].
  intros [= <-]. exists w', h'. repeat split; try lia. exact Hctx.
Qed.

(** *** The other version of the upload handler and of the gate *)

Lemma upload_whole_or_nothing (w : World) (fs : list File) :
  files w = Some fs ->
  images (store (snd (upload w))) = images (store w)
  \/ exists urls,
       map compress fs = map JS.Fulfilled urls
       /\ Forall fits urls
       /\ images (store (snd (upload w))) = images (store w) ++ urls.
Proof.
  intros Hfiles.
  destruct (small_or_oversized fs) as [Hs | Hb].
  - rewrite (upload_run number decode getContext2d toDataURL w fs Hfiles Hs).
    cbn [snd].
    destruct (batch_end_outcomes w fs)
      as [(v & E & _) | [(E & _) | (urls & Hall & Hfits & E)]];
      rewrite E; [left; reflexivity | left; reflexivity |].
    right. exists urls. repeat split; assumption.
  - rewrite (upload_oversized number decode getContext2d toDataURL
               w fs Hfiles Hb).
    left. reflexivity.
Qed.

(** X20: the upload handler of [part_000] appends one object URL per
    selected file, in selection order, whatever the files' sizes, and does
    nothing else: no error, no cleared input, a single update.  On the same
    selection the current handler stores either as many entries, one per
    file, or none. *)
Theorem Legacy_upload_accepts_every_file
  (createObjectURL : File -> string) (w : World) (fs : list File) :
  files w = Some fs ->
  Legacy.on_image_upload number createObjectURL w
  = (JS.Fulfilled tt,
     {| store :=
          with_images (images (store w) ++ map createObjectURL fs) (store w);
        files := Some fs;
        log := log w
                 ++ [SetImages (images (store w) ++ map createObjectURL fs)]
     |})
  /\ (length (images (store (snd (upload w))))
      = length
          (images
             (store (snd (Legacy.on_image_upload number createObjectURL w))))
      \/ images (store (snd (upload w))) = images (store w)).
Proof.
  intros Hfiles.
  assert (Hrun :
            Legacy.on_image_upload number createObjectURL w
            = (JS.Fulfilled tt,
               {| store :=
                    with_images
                      (images (store w) ++ map createObjectURL fs) (store w);
                  files := Some fs;
                  log := log w
                           ++ [SetImages
                                 (images (store w) ++ map createObjectURL fs)]
               |})).
  { unfold Legacy.on_image_upload, Legacy.handleImageUpload, async_function.
    cbv [bind e_target_files]. rewrite Hfiles.
    cbv [Array_from ret setImages update]. rewrite Hfiles. reflexivity. }
  split; [exact Hrun|].
  rewrite Hrun. cbn [snd store images with_images].
  destruct (upload_whole_or_nothing w fs Hfiles)
    as [Hsame | (urls & Hall & _ & Hmore)]; [right; exact Hsame|].
  left. rewrite Hmore, !length_app, length_map.
  apply (f_equal (@length _)) in Hall. rewrite !length_map in Hall.
  lia.
Qed.

(** X21: a batch is stored whole or not at all: after an upload event the
    image list is either unchanged or extended by the encodings of all the
    files of the selection, one per file and in order, each within the
    upload ceiling. *)
Theorem handleImageUpload_whole_or_nothing (w : World) (fs : list File) :
  files w = Some fs ->
  let w' := snd (upload w) in
  images (store w') = images (store w)
  \/ exists urls,
       map compress fs = map JS.Fulfilled urls
       /\ length urls = length fs
       /\ Forall fits urls
       /\ images (store w') = images (store w) ++ urls.
Proof.
  intros Hfiles w'. subst w'.
  destruct (upload_whole_or_nothing w fs Hfiles)
    as [Hsame | (urls & Hall & Hfits & Hmore)]; [left; exact Hsame|].
  right. exists urls. repeat split; try assumption.
  apply (f_equal (@length _)) in Hall. rewrite !length_map in Hall.
  symmetry. exact Hall.
Qed.

(** X22: the two versions gate a submission alike: the submit button of
    [part_000] is enabled exactly when [handleSubmit] of the current
    version would pass the form on to the external handler. *)
Theorem submit_gates_agree (w : World) (typed : Typed) :
  Legacy.submit_disabled number (store w) = false
  <-> exists formData,
        In (SubmitCall formData) (performed w (snd (submit typed w))).
Proof.
  unfold Legacy.submit_disabled.
  destruct (Nat.lt_ge_cases (length (images (store w))) 3) as [H | H].
  - rewrite (submit_short number JSON_stringify_number onSubmit w typed H).
    cbn [snd]. erewrite performed_app by reflexivity.
    split.
    + intros Hb. apply Nat.ltb_ge in Hb. lia.
    + intros (fd & [Hin | [Hin | []]]); discriminate.
  - rewrite (submit_full number JSON_stringify_number onSubmit w typed H).
    cbv zeta. cbn [snd].
    split; [|intros _; apply Nat.ltb_ge; exact H].
    intros _. exists (entries (store w) typed).
    destruct (onSubmit (entries (store w) typed));
      erewrite performed_app by reflexivity; cbn; auto.
Qed.

End Further.

(** ** The further theorems at concrete inputs *)

Lemma compressImage_dimensions_idempotent_witness :
  0 <= 4000 /\ 0 <= 3000
  /\ compressImage_dimensions (fst (compressImage_dimensions 4000 3000))
       (snd (compressImage_dimensions 4000 3000))
     = compressImage_dimensions 4000 3000.
Proof.
  split; [lia|]. split; [lia|].
  apply (compressImage_dimensions_idempotent 4000 3000); lia.
Defined.

Lemma compressImage_dimensions_shrink_only_witness :
  0 <= 1000 /\ 0 <= 3000
  /\ let '(w', h') := compressImage_dimensions 1000 3000 in
     0 <= w' <= 1000 /\ 0 <= h' <= 3000
     /\ (3000 < 1000 -> h' <= w') /\ (1000 <= 3000 -> w' <= h').
Proof.
  split; [lia|]. split; [lia|].
  apply (compressImage_dimensions_shrink_only 1000 3000); lia.
Defined.

Lemma compressImage_dimensions_zero_side_witness :
  0 <= 5000 /\ 0 <= 2
  /\ let '(w', h') := compressImage_dimensions 5000 2 in
     (0 < 2 -> (h' = 0 <-> 2048 * 2 < 5000))
     /\ (0 < 5000 -> (w' = 0 <-> 2048 * 5000 < 2)).
Proof.
  split; [lia|]. split; [lia|].
  apply (compressImage_dimensions_zero_side 5000 2); lia.
Defined.

Lemma sizeInBytes_counts_first_piece_witness :
  comma_free "data:image/jpeg;base64" = true
  /\ comma_free "AAAA" = true
  /\ sizeInBytes "data:image/jpeg;base64,AAAA"
     = Some (inject_Z (Z.of_nat (String.length "AAAA")) * (75 # 100))%Q.
Proof.
  split; [reflexivity|]. split; [reflexivity|].
  exact (proj1 (sizeInBytes_counts_first_piece "data:image/jpeg;base64"
                  "AAAA" eq_refl eq_refl)).
Defined.

Lemma handleSubmit_touches_error_only_witness :
  (3 <= length (images (store Demo.three_images)))%nat
  /\ Demo.accept
       (form_entries Demo.print (store Demo.three_images) Demo.typed)
     = JS.Fulfilled tt
  /\ error
       (store
          (snd (on_form_submit Demo.print Demo.accept Demo.typed
                  Demo.three_images)))
     = None.
Proof.
  assert (Hfull : (3 <= length (images (store Demo.three_images)))%nat).
  { vm_compute. lia. }
  pose proof (handleSubmit_touches_error_only Z Demo.print Demo.accept
                Demo.three_images Demo.typed) as H.
  cbv zeta in H. destruct H as (_ & _ & _ & _ & _ & _ & H).
  split; [exact Hfull|]. split; [reflexivity|].
  exact (proj1 (H Hfull eq_refl)).
Defined.

Lemma handleSubmit_sends_the_form_witness :
  (3 <= length (images (store Demo.three_images)))%nat
  /\ exists formData,
       In (SubmitCall formData)
         (performed Demo.three_images
            (snd (on_form_submit Demo.print Demo.accept Demo.typed
                    Demo.three_images)))
       /\ FormData_getAll "images" formData
          = images (store Demo.three_images).
Proof.
  assert (Hfull : (3 <= length (images (store Demo.three_images)))%nat).
  { vm_compute. lia. }
  split; [exact Hfull|].
  destruct (handleSubmit_sends_the_form Z Demo.print Demo.accept
              Demo.three_images Demo.typed Hfull)
    as (formData & Hin & Himages & _).
  exists formData. split; [exact Hin | exact Himages].
Defined.

Lemma handleImageUpload_success_trace_witness :
  files Demo.two_photos = Some [Demo.shop; Demo.menu]
  /\ error
       (store
          (snd (on_image_upload Demo.decode Demo.getContext2d Demo.toDataURL
                  Demo.two_photos)))
     = None
  /\ isProcessing
       (store
          (snd (on_image_upload Demo.decode Demo.getContext2d Demo.toDataURL
                  Demo.two_photos)))
     = false.
Proof.
  assert (Hsmall : Forall (fun f => size f <= MAX_IMAGE_SIZE)
                     [Demo.shop; Demo.menu]).
  { repeat constructor; vm_compute; discriminate. }
  assert (Hfits : Forall fits [Demo.encoded Demo.shop; Demo.encoded Demo.menu]).
  { repeat constructor;
      (eapply size_fits; [vm_compute; reflexivity | reflexivity]). }
  pose proof (handleImageUpload_success_trace Z Demo.decode
                Demo.getContext2d Demo.toDataURL Demo.two_photos
                [Demo.shop; Demo.menu]
                [Demo.encoded Demo.shop; Demo.encoded Demo.menu]
                eq_refl Hsmall eq_refl Hfits) as H.
  cbv zeta in H. destruct H as (Herror & Hflag & _).
  split; [reflexivity|]. split; [exact Herror | exact Hflag].
Defined.

Lemma handleImageUpload_compresses_every_file_witness :
  files Demo.with_broken = Some [Demo.shop; Demo.broken]
  /\ Forall (fun f => size f <= MAX_IMAGE_SIZE) [Demo.shop; Demo.broken]
  /\ filter is_CompressCall
       (performed Demo.with_broken
          (snd (on_image_upload Demo.decode Demo.getContext2d Demo.toDataURL
                  Demo.with_broken)))
     = [CompressCall Demo.shop; CompressCall Demo.broken].
Proof.
  assert (Hsmall : Forall (fun f => size f <= MAX_IMAGE_SIZE)
                     [Demo.shop; Demo.broken]).
  { repeat constructor; vm_compute; discriminate. }
  split; [reflexivity|]. split; [exact Hsmall|].
  exact (handleImageUpload_compresses_every_file Z Demo.decode
           Demo.getContext2d Demo.toDataURL Demo.with_broken
           [Demo.shop; Demo.broken] eq_refl Hsmall).
Defined.

Lemma handleImageUpload_fails_on_comma_free_result_witness :
  files Demo.with_sign = Some [Demo.shop; Demo.sign]
  /\ comma_free "data:" = true
  /\ error
       (store
          (snd (on_image_upload Demo.decode Demo.getContext2d
                  Demo.toDataURL_bare Demo.with_sign)))
     = Some failed_message.
Proof.
  assert (Hsmall : Forall (fun f => size f <= MAX_IMAGE_SIZE)
                     [Demo.shop; Demo.sign]).
  { repeat constructor; vm_compute; discriminate. }
  assert (Hgood : Forall fits [Demo.encoded Demo.shop]).
  { repeat constructor.
    eapply size_fits; [vm_compute; reflexivity | reflexivity]. }
  split; [reflexivity|]. split; [reflexivity|].
  apply (handleImageUpload_fails_on_comma_free_result Z Demo.decode
           Demo.getContext2d Demo.toDataURL_bare Demo.with_sign
           [Demo.shop; Demo.sign] [Demo.encoded Demo.shop] [] "data:"
           eq_refl Hsmall eq_refl Hgood eq_refl).
Defined.

Lemma uploads_accumulate_witness :
  Forall (fun f => size f <= MAX_IMAGE_SIZE) [Demo.shop]
  /\ Forall fits [Demo.encoded Demo.shop]
  /\ images
       (store
          (session Demo.print Demo.decode Demo.getContext2d Demo.toDataURL
             Demo.accept
             [FilesChange (Some [Demo.shop]); FilesChange (Some [Demo.shop])]
             Demo.one_image))
     = images (store Demo.one_image)
         ++ [Demo.encoded Demo.shop] ++ [Demo.encoded Demo.shop].
Proof.
  assert (Hsmall : Forall (fun f => size f <= MAX_IMAGE_SIZE) [Demo.shop]).
  { repeat constructor; vm_compute; discriminate. }
  assert (Hfits : Forall fits [Demo.encoded Demo.shop]).
  { repeat constructor.
    eapply size_fits; [vm_compute; reflexivity | reflexivity]. }
  split; [exact Hsmall|]. split; [exact Hfits|].
  apply (uploads_accumulate Z Demo.print Demo.decode Demo.getContext2d
           Demo.toDataURL Demo.accept Demo.one_image
           [Demo.shop] [Demo.shop]
           [Demo.encoded Demo.shop] [Demo.encoded Demo.shop]
           Hsmall Hsmall eq_refl eq_refl Hfits Hfits).
Defined.

Lemma submitted_forms_are_complete_witness :
  In (SubmitCall (form_entries Demo.print Demo.visited Demo.typed))
    (log
       (session Demo.print Demo.decode Demo.getContext2d Demo.toDataURL
          Demo.accept Demo.visit (first_render Demo.old_town)))
  /\ (3 <= length
             (FormData_getAll "images"
                (form_entries Demo.print Demo.visited Demo.typed)))%nat.
Proof.
  assert (Hin :
            In (SubmitCall (form_entries Demo.print Demo.visited Demo.typed))
              (log
                 (session Demo.print Demo.decode Demo.getContext2d
                    Demo.toDataURL Demo.accept Demo.visit
                    (first_render Demo.old_town)))).
  { vm_compute. repeat (try (left; reflexivity); right). }
  split; [exact Hin|].
  exact (proj1 (submitted_forms_are_complete Z Demo.print Demo.decode
                  Demo.getContext2d Demo.toDataURL Demo.accept
                  Demo.old_town Demo.visit _ Hin)).
Defined.

Lemma failed_submission_banner_witness :
  (3 <= length (images (store Demo.three_images)))%nat
  /\ Demo.refuse_silently
       (form_entries Demo.print (store Demo.three_images) Demo.typed)
     = JS.Rejected (JS.ErrorObject EmptyString)
  /\ error_banner
       (store
          (snd (on_form_submit Demo.print Demo.refuse_silently Demo.typed
                  Demo.three_images)))
     = None.
Proof.
  assert (Hfull : (3 <= length (images (store Demo.three_images)))%nat).
  { vm_compute. lia. }
  split; [exact Hfull|]. split; [reflexivity|].
  exact (proj2 (failed_submission_banner Z Demo.print Demo.refuse_silently
                  Demo.three_images Demo.typed
                  (JS.ErrorObject EmptyString) Hfull eq_refl) eq_refl).
Defined.

Lemma compressImage_draws_bounded_canvas_witness :
  Demo.decode Demo.shop = Some (4000, 3000)
  /\ compressImage Demo.decode Demo.getContext2d Demo.toDataURL Demo.shop
     = JS.Fulfilled (Demo.encoded Demo.shop)
  /\ exists w' h',
       Demo.encoded Demo.shop = Demo.toDataURL Demo.shop w' h'
       /\ Demo.getContext2d w' h' = true
       /\ 0 <= w' <= 1024 /\ 0 <= h' <= 1024
       /\ w' <= 4000 /\ h' <= 3000.
Proof.
  split; [reflexivity|]. split; [reflexivity|].
  apply (compressImage_draws_bounded_canvas Demo.decode Demo.getContext2d
           Demo.toDataURL Demo.shop 4000 3000 (Demo.encoded Demo.shop)
           eq_refl); [lia | lia | reflexivity].
Defined.

Lemma Legacy_upload_accepts_every_file_witness :
  files Demo.with_raw = Some [Demo.shop; Demo.raw]
  /\ Legacy.on_image_upload Z Demo.createObjectURL Demo.with_raw
     = (JS.Fulfilled tt,
        {| store :=
             with_images
               (images (store Demo.with_raw)
                  ++ map Demo.createObjectURL [Demo.shop; Demo.raw])
               (store Demo.with_raw);
           files := Some [Demo.shop; Demo.raw];
           log := log Demo.with_raw
                    ++ [SetImages
                          (images (store Demo.with_raw)
                             ++ map Demo.createObjectURL
                                  [Demo.shop; Demo.raw])] |}).
Proof.
  split; [reflexivity|].
  exact (proj1 (Legacy_upload_accepts_every_file Z Demo.decode
                  Demo.getContext2d Demo.toDataURL Demo.createObjectURL
                  Demo.with_raw [Demo.shop; Demo.raw] eq_refl)).
Defined.

Lemma handleImageUpload_whole_or_nothing_witness :
  files Demo.with_broken = Some [Demo.shop; Demo.broken]
  /\ (images
        (store
           (snd (on_image_upload Demo.decode Demo.getContext2d
                   Demo.toDataURL Demo.with_broken)))
      = images (store Demo.with_broken)
      \/ exists urls,
           map (compressImage Demo.decode Demo.getContext2d Demo.toDataURL)
             [Demo.shop; Demo.broken]
           = map JS.Fulfilled urls
           /\ length urls = length [Demo.shop; Demo.broken]
           /\ Forall fits urls
           /\ images
                (store
                   (snd (on_image_upload Demo.decode Demo.getContext2d
                           Demo.toDataURL Demo.with_broken)))
              = images (store Demo.with_broken) ++ urls).
Proof.
  split; [reflexivity|].
  exact (handleImageUpload_whole_or_nothing Z Demo.decode Demo.getContext2d
           Demo.toDataURL Demo.with_broken [Demo.shop; Demo.broken] eq_refl).
Defined.
